(** * The video ingestion pipeline: main.py and postgres_wrapper.py

    A shallow embedding of the scan loop, the metadata probe, the corruption
    check, the pose extraction adapter, the file lifecycle manager and the
    PostgreSQL wrapper, followed by the properties of the design document
    that were checked against it.

    External collaborators (OpenCV, ffprobe, the YOLO model, Redis,
    PostgreSQL, the operating system) are not part of the repository.  Their
    behaviour during the handling of one file is an oracle ([FileOracle]):
    every external call either returns what the oracle says or raises the
    exception the oracle says; a [shutil.move] that raises may have left a
    copy behind.  What the operating system answers once per scan cycle
    ([os.listdir]) is a second oracle ([CycleOracle]).  The stores they own
    (file system, Redis keys, the result table) are explicit state
    ([World]).  File names are byte strings; the program's [lower()] is
    exact on ASCII names.

    Python floats are IEEE binary64 numbers ([PrimFloat]).  The state also
    keeps the log and the sequence of calls made ([trace]), which the
    program does not read; log texts that embed the repr of an object are
    shortened.  Exceptions outside [Exception] (interrupts) are not
    modelled. *)

From Stdlib Require Import ZArith Floats Ascii String.
From stdpp Require Import gmap strings list fin_maps pretty.

Open Scope Z_scope.

(** ** Python values, exceptions and the statement forms the code uses *)

Module Py.

(** The exceptions that reach the handlers of the two files.  All of them
    derive from [Exception]; [FileNotFoundError] and [PermissionError]
    derive from [OSError]. *)
Inductive exn : Type :=
| FileNotFoundError
| PermissionError
| OSError (msg : string)
| KeyError (key : string)
| TypeError
| ValueError
| OverflowError
| AttributeError
| Exception (msg : string).

Definition str_exn (e : exn) : string :=
  match e with
  | FileNotFoundError => "FileNotFoundError"
  | PermissionError => "PermissionError"
  | OSError msg => msg
  | KeyError key => key
  | TypeError => "TypeError"
  | ValueError => "ValueError"
  | OverflowError => "OverflowError"
  | AttributeError => "AttributeError"
  | Exception msg => msg
  end.

Inductive result (A : Type) : Type :=
| Ok (a : A)
| Raise (e : exn).
Arguments Ok {A} a.
Arguments Raise {A} e.

Definition is_ok {A} (r : result A) : bool :=
  match r with Ok _ => true | Raise _ => false end.

(** A statement over a state [S]: it returns or raises, and leaves a state
    either way. *)
Definition M (S A : Type) : Type := S -> result A * S.

Definition ret {S A} (a : A) : M S A := fun s => (Ok a, s).
Definition raise {S A} (e : exn) : M S A := fun s => (Raise e, s).
Definition bind {S A B} (c : M S A) (k : A -> M S B) : M S B :=
  fun s => match c s with
           | (Ok a, s1) => k a s1
           | (Raise e, s1) => (Raise e, s1)
           end.
Definition gets {S A} (f : S -> A) : M S A := fun s => (Ok (f s), s).
Definition modify {S} (f : S -> S) : M S unit := fun s => (Ok tt, f s).

(** The outcome of an external call that the oracle decides. *)
Definition of_result {S A} (r : result A) : M S A := fun s => (r, s).
Definition of_fault {S} (f : option exn) : M S unit :=
  fun s => match f with None => (Ok tt, s) | Some e => (Raise e, s) end.

(** [try: body / except Exception as e: handler e / else: els]:
    the handler covers the body only, never the [else] suite. *)
Definition try_except_else {S A B}
    (body : M S A) (handler : exn -> M S B) (els : A -> M S B) : M S B :=
  fun s => match body s with
           | (Ok a, s1) => els a s1
           | (Raise e, s1) => handler e s1
           end.

Definition try_except {S A} (body : M S A) (handler : exn -> M S A) : M S A :=
  try_except_else body handler ret.

(** [try: body / finally: fin]: [fin] always runs; the pending result of
    [body] is kept unless [fin] itself raises. *)
Definition try_finally {S A} (body : M S A) (fin : M S unit) : M S A :=
  fun s => match body s with
           | (r, s1) => match fin s1 with
                        | (Ok _, s2) => (r, s2)
                        | (Raise e, s2) => (Raise e, s2)
                        end
           end.

(** [for x in xs: body x]: an exception leaves the loop. *)
Fixpoint for_each {S A} (xs : list A) (body : A -> M S unit) : M S unit :=
  match xs with
  | [] => ret tt
  | x :: rest => bind (body x) (fun _ => for_each rest body)
  end.

(** The values a field of the result dataclass is given: the annotations
    of the dataclass are not enforced, [frame_rate] receives a [str] and
    [duration_seconds] an [int] on one path. *)
Inductive value : Type :=
| Float (f : float)
| Int (z : Z)
| Str (s : string).

(** *** Numbers *)

(** [int(x)] on a float: truncation towards zero; [ValueError] on NaN,
    [OverflowError] on an infinity. *)
Definition int_of_float (x : float) : result Z :=
  match Prim2SF x with
  | S754_zero _ => Ok 0
  | S754_finite s m e =>
      let a := if 0 <=? e then Z.shiftl (Zpos m) e else Z.shiftr (Zpos m) (- e) in
      Ok (if s then - a else a)
  | S754_infinity _ => Raise OverflowError
  | S754_nan => Raise ValueError
  end.

(** The conversion of an [int] operand of [/] to a float (round to nearest
    even, [OverflowError] beyond the largest double). *)
Definition float_of_int (z : Z) : result float :=
  match binary_normalize prec emax z 0 false with
  | S754_infinity _ => Raise OverflowError
  | sf => Ok (SF2Prim sf)
  end.

(** Truth value of a float: every float but the two zeros (NaN included). *)
Definition truthy (x : float) : bool :=
  match Prim2SF x with
  | S754_zero _ => false
  | _ => true
  end.

(** [frame_count / fps] for an [int] and a non-zero float. *)
Definition truediv (n : Z) (d : float) : result float :=
  match float_of_int n with
  | Ok x => Ok (PrimFloat.div x d)
  | Raise e => Raise e
  end.

(** *** Strings *)

Definition two_digits (n : Z) : string :=
  if n <? 10 then "0" +:+ pretty n else pretty n.

(** Round [a * 2^e] to the nearest integer, ties to even ([a >= 0]). *)
Definition round_half_even (a e : Z) : Z :=
  if 0 <=? e then Z.shiftl a e
  else
    let d := Z.shiftl 1 (- e) in
    let q := a / d in
    let r := a mod d in
    if 2 * r <? d then q
    else if d <? 2 * r then q + 1
    else if Z.even q then q else q + 1.

(** [f'{x:.2f}'] on a float. *)
Definition format_2f (x : float) : string :=
  match Prim2SF x with
  | S754_nan => "nan"
  | S754_infinity s => if s then "-inf" else "inf"
  | S754_zero s => if s then "-0.00" else "0.00"
  | S754_finite s m e =>
      let n := round_half_even (Zpos m * 100) e in
      (if s then "-" else "") +:+ pretty (n / 100) +:+ "." +:+ two_digits (n mod 100)
  end.

(** [f'{v:.2f}'] on what [duration] can be. *)
Definition format_2f_value (v : value) : string :=
  match v with
  | Float x => format_2f x
  | Int z => pretty z +:+ ".00"
  | Str s => s
  end.

Definition lower_ascii (c : ascii) : ascii :=
  let n := nat_of_ascii c in
  if ((65 <=? n) && (n <=? 90))%nat then ascii_of_nat (n + 32) else c.

(** [s.lower()], on ASCII text. *)
Fixpoint lower (s : string) : string :=
  match s with
  | EmptyString => EmptyString
  | String c rest => String (lower_ascii c) (lower rest)
  end.

Fixpoint startswith (s pre : string) : bool :=
  match pre, s with
  | EmptyString, _ => true
  | String _ _, EmptyString => false
  | String a pre', String b s' => if decide (a = b) then startswith s' pre' else false
  end.

Fixpoint drop (n : nat) (s : string) : string :=
  match n, s with
  | O, _ => s
  | S _, EmptyString => EmptyString
  | S n', String _ rest => drop n' rest
  end.

Fixpoint take (n : nat) (s : string) : string :=
  match n, s with
  | O, _ => EmptyString
  | S _, EmptyString => EmptyString
  | S n', String c rest => String c (take n' rest)
  end.

(** [s.endswith(suf)] *)
Definition endswith (s suf : string) : bool :=
  (String.length suf <=? String.length s)%nat
  && bool_decide (drop (String.length s - String.length suf) s = suf).

(** [s.endswith(sufs)] for a tuple of suffixes. *)
Definition endswith_any (s : string) (sufs : list string) : bool :=
  existsb (endswith s) sufs.

(** [s.rfind(c)]: the last index of [c], or -1. *)
Fixpoint rfind (c : ascii) (s : string) : Z :=
  match s with
  | EmptyString => -1
  | String a rest =>
      let i := rfind c rest in
      if 0 <=? i then i + 1
      else if decide (a = c) then 0 else -1
  end.

(** *** posixpath *)

Definition sep : ascii := "/"%char.
Definition extsep : ascii := "."%char.

(** [os.path.basename(p)]: [i = p.rfind('/') + 1; return p[i:]] *)
Definition basename (p : string) : string :=
  let i := rfind sep p + 1 in
  drop (Z.to_nat i) p.

(** The [while filenameIndex < dotIndex] scan of [genericpath._splitext]:
    true when some character between the two indexes is not a dot. *)
Fixpoint has_non_dot (s : string) : bool :=
  match s with
  | EmptyString => false
  | String a rest => if decide (a = extsep) then has_non_dot rest else true
  end.

(** [os.path.splitext(p)] *)
Definition splitext (p : string) : string * string :=
  let sepIndex := rfind sep p in
  let dotIndex := rfind extsep p in
  if sepIndex <? dotIndex then
    let filenameIndex := sepIndex + 1 in
    if has_non_dot (take (Z.to_nat (dotIndex - filenameIndex)) (drop (Z.to_nat filenameIndex) p))
    then (take (Z.to_nat dotIndex) p, drop (Z.to_nat dotIndex) p)
    else (p, EmptyString)
  else (p, EmptyString).

(** [os.path.join(a, b)] *)
Definition join (a b : string) : string :=
  if startswith b "/" then b
  else if bool_decide (a = EmptyString) || endswith a "/" then a +:+ b
  else a +:+ "/" +:+ b.

End Py.

Import Py.

Declare Scope py_scope.
Delimit Scope py_scope with py.
Notation "x <- c ;; k" := (bind c (fun x => k))
  (at level 100, c at next level, right associativity) : py_scope.
Notation "c ;;; k" := (bind c (fun _ => k))
  (at level 100, right associativity) : py_scope.
Open Scope py_scope.

(** ** The state the program acts on *)

(** What [model.predict] is given and what it returns.  The model and the
    decoder are opaque: a frame is its pixel data, the keypoints of a frame
    are one list of [x, y, confidence] triples per detected person. *)
Definition Frame : Type := list Z.
Definition Keypoints : Type := list (list (list float)).

(** postgres_wrapper.py, [VideoProcessingResultFields]. *)
Record VideoProcessingResultFields : Type := mkFields {
  video_filename : string;
  duration_seconds : value;
  resolution : string;
  codec : string;
  frame_rate : value;
  corrupted : option bool;
  pose_file_path : string
}.

(** The dataclass constructor with its defaults. *)
Definition new_fields (filename : string) : VideoProcessingResultFields :=
  {| video_filename := filename;
     duration_seconds := Float 0%float;
     resolution := "N/A";
     codec := "N/A";
     frame_rate := Float 0%float;
     corrupted := None;
     pose_file_path := "N/A" |}.

Definition set_duration_seconds (v : value) (m : VideoProcessingResultFields) :=
  mkFields (video_filename m) v (resolution m) (codec m) (frame_rate m)
           (corrupted m) (pose_file_path m).
Definition set_resolution (v : string) (m : VideoProcessingResultFields) :=
  mkFields (video_filename m) (duration_seconds m) v (codec m) (frame_rate m)
           (corrupted m) (pose_file_path m).
Definition set_codec (v : string) (m : VideoProcessingResultFields) :=
  mkFields (video_filename m) (duration_seconds m) (resolution m) v (frame_rate m)
           (corrupted m) (pose_file_path m).
Definition set_frame_rate (v : value) (m : VideoProcessingResultFields) :=
  mkFields (video_filename m) (duration_seconds m) (resolution m) (codec m) v
           (corrupted m) (pose_file_path m).
Definition set_corrupted (v : bool) (m : VideoProcessingResultFields) :=
  mkFields (video_filename m) (duration_seconds m) (resolution m) (codec m)
           (frame_rate m) (Some v) (pose_file_path m).
Definition set_pose_file_path (v : string) (m : VideoProcessingResultFields) :=
  mkFields (video_filename m) (duration_seconds m) (resolution m) (codec m)
           (frame_rate m) (corrupted m) v.

(** A row of the result table: the seven columns the statement writes and
    the server-side [processed_at]. *)
Record DbRow : Type := mkRow {
  row_fields : VideoProcessingResultFields;
  processed_at : Z
}.

(** config.json: the values the program reads are strings, numbers and
    lists; nothing fixes the type of a value or of the entries of a
    list. *)
#[warnings="-register-all"] Inductive cfg_value : Type :=
| CfgStr (s : string)
| CfgNum (n : Z)
| CfgList (l : list cfg_value).

Inductive level : Type := INFO | ERROR.

(** The calls a property may need to count. *)
Inductive Event : Type :=
| CallExtractMetadata (video_path : string)
| CallIsCorrupted (video_path : string)
| CallPoseDetection (video_path : string)
| CallPredict (frame : option Frame)
| CallDbInsert (db_table : cfg_value) (row_data : VideoProcessingResultFields)
| CallRedisExists (key : string)
| CallRedisSet (key : string)
| CallMove (src dst : string).

Record World : Type := mkWorld {
  fs : gmap string string;              (* regular files by path, with their bytes *)
  redis : gmap string string;           (* the keys of the Redis instance *)
  pg_connection : option Z;             (* [self.connection], as its [closed] attribute *)
  pg_rows : gmap string DbRow;          (* committed rows, by [video_filename] *)
  pg_pending : option (gmap string DbRow);  (* rows as the open transaction sees them *)
  log : list (level * string);
  trace : list Event
}.

Definition set_fs (f : gmap string string -> gmap string string) (w : World) : World :=
  mkWorld (f (fs w)) (redis w) (pg_connection w) (pg_rows w) (pg_pending w) (log w) (trace w).
Definition set_redis (f : gmap string string -> gmap string string) (w : World) : World :=
  mkWorld (fs w) (f (redis w)) (pg_connection w) (pg_rows w) (pg_pending w) (log w) (trace w).
Definition set_pg_connection (c : option Z) (w : World) : World :=
  mkWorld (fs w) (redis w) c (pg_rows w) (pg_pending w) (log w) (trace w).
Definition set_pg_rows (r : gmap string DbRow) (w : World) : World :=
  mkWorld (fs w) (redis w) (pg_connection w) r (pg_pending w) (log w) (trace w).
Definition set_pg_pending (p : option (gmap string DbRow)) (w : World) : World :=
  mkWorld (fs w) (redis w) (pg_connection w) (pg_rows w) p (log w) (trace w).
Definition add_log (l : level) (msg : string) (w : World) : World :=
  mkWorld (fs w) (redis w) (pg_connection w) (pg_rows w) (pg_pending w)
          (log w ++ [(l, msg)]) (trace w).
Definition add_event (e : Event) (w : World) : World :=
  mkWorld (fs w) (redis w) (pg_connection w) (pg_rows w) (pg_pending w)
          (log w) (trace w ++ [e]).

Definition logging_info {S} (inW : (World -> World) -> S -> S) (msg : string) : M S unit :=
  modify (inW (add_log INFO msg)).
Definition logging_error {S} (inW : (World -> World) -> S -> S) (msg : string) : M S unit :=
  modify (inW (add_log ERROR msg)).
Definition emit {S} (inW : (World -> World) -> S -> S) (e : Event) : M S unit :=
  modify (inW (add_event e)).

(** Statements of the main module act on the world itself; inside
    [extract_metadata] the state also holds the [metadata] object, which
    keeps the fields set before an exception. *)
Definition here : (World -> World) -> World -> World := fun f => f.
Definition under {L} : (World -> World) -> L * World -> L * World :=
  fun f s => (fst s, f (snd s)).
Definition assign {L} (f : L -> L) : M (L * World) unit :=
  modify (fun s => (f (fst s), snd s)).

(** ** The external collaborators, as oracles *)

(** A [cv2.VideoCapture] object: what its methods answer.  [cap_reads]
    lists the results of the successive [read()] calls; past its end the
    stream is exhausted and [read()] returns [(False, None)]. *)
Record Capture : Type := mkCapture {
  cap_isOpened : bool;
  cap_frame_count : result float;       (* cap.get(cv2.CAP_PROP_FRAME_COUNT) *)
  cap_fps : result float;               (* cap.get(cv2.CAP_PROP_FPS) *)
  cap_frame_width : result float;       (* cap.get(cv2.CAP_PROP_FRAME_WIDTH) *)
  cap_frame_height : result float;      (* cap.get(cv2.CAP_PROP_FRAME_HEIGHT) *)
  cap_reads : list (result (bool * option Frame));
  cap_release : option exn
}.

(** What [json.loads(result.stdout)] gives in [get_video_codec], as far as
    the function looks at it: the ["streams"] entry if the object has one,
    and for each stream its ["codec_name"] entry if it has one. *)
Definition FfprobeInfo : Type := option (list (option string)).

(** A [shutil.move] that raises.  [os.rename] moves the file or fails as
    a whole; when it fails, [shutil.move] copies the file and then unlinks
    the source.  An exception of either step leaves the source in place
    and, at the destination, what the copy had written by then ([None]:
    nothing). *)
Record MoveFault : Type := mkMoveFault {
  mf_exn : exn;
  mf_left : option string
}.

(** The behaviour of the outside world while one file is handled. *)
Record FileOracle : Type := mkOracle {
  o_open_read : option exn;             (* open(full_path, 'rb').read() *)
  o_redis_exists : option exn;          (* r.exists *)
  o_probe_capture : result Capture;     (* cv2.VideoCapture in extract_metadata *)
  o_ffprobe : result FfprobeInfo;       (* subprocess.run and json.loads *)
  o_check_capture : result Capture;     (* cv2.VideoCapture in is_corrupted *)
  o_pose_capture : result Capture;      (* cv2.VideoCapture in pose_detection *)
  o_predict : option Frame -> result Keypoints;  (* model.predict and the keypoint lists *)
  o_open_write : option exn;            (* open(json_path, "w") *)
  o_json_dump : option exn;             (* json.dump *)
  o_cursor : option exn;                (* connection.cursor() *)
  o_execute : option exn;               (* cursor.execute *)
  o_commit : option exn;                (* connection.commit() *)
  o_rollback : option exn;              (* connection.rollback() *)
  o_now : Z;                            (* CURRENT_TIMESTAMP of the statement *)
  o_redis_set : option exn;             (* r.set *)
  o_move : option MoveFault             (* shutil.move *)
}.

(** ** main.py and postgres_wrapper.py *)

Section Pipeline.

(** [CONFIG], the parsed config.json. *)
Variable CONFIG : gmap string cfg_value.
(** [hashlib.md5(data).hexdigest()] and the text [json.dump] writes. *)
Variable md5_hexdigest : string -> string.
Variable json_dumps : list (Z * Keypoints) -> string.

(** [CONFIG[key]] *)
Definition config {S} (key : string) : M S cfg_value :=
  of_result (match CONFIG !! key with
             | Some v => Ok v
             | None => Raise (KeyError key)
             end).

(** [CONFIG[key]] where a path is needed ([os.path.join] and [os.listdir]
    raise [TypeError] on anything but a string). *)
Definition config_path {S} (key : string) : M S string :=
  v <- config key;;
  match v with
  | CfgStr s => ret s
  | _ => raise TypeError
  end.

(** *** main.py, [get_video_codec] *)
Definition get_video_codec {S} (inW : (World -> World) -> S -> S)
    (o : FileOracle) (video_path : string) : M S string :=
  try_except
    (info <- of_result (o_ffprobe o);;
     codec <- match info with
              | Some (stream :: _) =>
                  match stream with
                  | Some codec_name => ret codec_name
                  | None => raise (KeyError "codec_name")
                  end
              | Some [] | None => ret "N/A"
              end;;
     logging_info inW ("code: " +:+ codec);;;
     ret codec)
    (fun e =>
       logging_error inW ("Failed to extract codec: " +:+ str_exn e);;;
       ret "N/A").

(** *** main.py, [extract_metadata] *)

(** [try: ... finally: return v]: the [return] of the [finally] suite
    discards whatever the [try] statement left pending. *)
Definition finally_return {S A B} (stmt : M S A) (v : S -> B) : M S B :=
  fun s => match stmt s with (_, s1) => (Ok (v s1), s1) end.

(** A function body with a local object [l0]. *)
Definition with_local {L A} (l0 : L) (c : M (L * World) A) : M World A :=
  fun w => match c (l0, w) with (r, (_, w1)) => (r, w1) end.

Definition extract_metadata_try (o : FileOracle) (video_path : string)
  : M (VideoProcessingResultFields * World) unit :=
  cap <- of_result (o_probe_capture o);;
  x <- of_result (cap_frame_count cap);;
  frame_count <- of_result (int_of_float x);;
  fps <- of_result (cap_fps cap);;
  logging_info under ("Frame rate: " +:+ format_2f fps +:+ " FPS");;;
  assign (set_frame_rate (Str (format_2f fps)));;;
  duration <- (if truthy fps
               then d <- of_result (truediv frame_count fps);; ret (Float d)
               else ret (Int 0));;
  logging_info under ("Duration: " +:+ format_2f_value duration +:+ " seconds");;;
  assign (set_duration_seconds duration);;;
  xw <- of_result (cap_frame_width cap);;
  width <- of_result (int_of_float xw);;
  xh <- of_result (cap_frame_height cap);;
  height <- of_result (int_of_float xh);;
  logging_info under ("resolution: " +:+ pretty width +:+ " x " +:+ pretty height);;;
  assign (set_resolution (pretty width +:+ " x " +:+ pretty height));;;
  codec <- get_video_codec under o video_path;;
  assign (set_codec codec);;;
  of_fault (cap_release cap).

Definition extract_metadata (o : FileOracle) (video_path : string)
  : M World VideoProcessingResultFields :=
  emit here (CallExtractMetadata video_path);;;
  let filename := basename video_path in
  let metadata := new_fields filename in
  with_local metadata
    (finally_return
       (try_except_else
          (extract_metadata_try o video_path)
          (fun e => logging_error under
             ("error while trying to extract metadata for file " +:+ video_path
                +:+ " - " +:+ str_exn e))
          (fun _ => logging_info under
             ("finished extracting metadata for file " +:+ video_path)))
       fst).

(** *** main.py, [is_corrupted] *)

(** The next [cap.read()]. *)
Definition first_read (cap : Capture) : result (bool * option Frame) :=
  match cap_reads cap with
  | [] => Ok (false, None)
  | r :: _ => r
  end.

Definition is_corrupted (o : FileOracle) (video_path : string) : M World bool :=
  emit here (CallIsCorrupted video_path);;;
  cap <- of_result (o_check_capture o);;
  corrupted <-
    (if negb (cap_isOpened cap) then
       logging_info here "Failed to open video. It may be corrupted or unsupported.";;;
       ret true
     else
       x <- of_result (cap_frame_count cap);;
       frame_count <- of_result (int_of_float x);;
       rd <- of_result (first_read cap);;
       let '(success, frame) := rd in
       if negb success || bool_decide (frame = None) then
         logging_info here "Unable to read frames. Video may be corrupted.";;;
         ret true
       else
         logging_info here ("Video opened successfully. Frame count: " +:+ pretty frame_count);;;
         ret false);;
  of_fault (cap_release cap);;;
  ret corrupted.

(** *** main.py, [pose_detection] *)

(** The [while cap.isOpened()] loop, over the reads the stream still has. *)
Fixpoint pose_loop (o : FileOracle) (reads : list (result (bool * option Frame)))
    (frame_count : Z) (pose_data : list (Z * Keypoints))
  : M World (list (Z * Keypoints)) :=
  match reads with
  | [] => ret pose_data
  | r :: rest =>
      rd <- of_result r;;
      let '(ret_, frame) := rd in
      if negb ret_ then ret pose_data
      else
        emit here (CallPredict frame);;;
        keypoints <- of_result (o_predict o frame);;
        pose_loop o rest (frame_count + 1) (pose_data ++ [(frame_count, keypoints)])
  end.

(** The [try] suite of [pose_detection]. *)
Definition pose_try (o : FileOracle) (video_path : string)
  : M World (list (Z * Keypoints)) :=
  cap <- of_result (o_pose_capture o);;
  pose_data <- (if cap_isOpened cap
                then pose_loop o (cap_reads cap) 0 []
                else ret []);;
  of_fault (cap_release cap);;;
  logging_info here
    ("pose detection process for file " +:+ video_path +:+ " finished successfully.");;;
  ret pose_data.

Definition pose_detection (o : FileOracle) (video_path : string) : M World string :=
  emit here (CallPoseDetection video_path);;;
  let filename := basename video_path in
  let name := fst (splitext filename) in
  try_except_else
    (pose_try o video_path)
    (fun e =>
       logging_error here
         ("unable to perform pose detection on video " +:+ video_path +:+ " - " +:+ str_exn e);;;
       ret "N/A")
    (fun pose_data =>
       folder <- config_path "pose_data_folder";;
       let json_path := join folder (name +:+ "_pose.json") in
       of_fault (o_open_write o);;;
       modify (set_fs (insert json_path ""));;;
       of_fault (o_json_dump o);;;
       modify (set_fs (insert json_path (json_dumps pose_data)));;;
       ret json_path).

(** *** main.py, [move_processed_file] *)

(** [shutil.move(src, dst)] of a regular file onto a file path.  Without
    the source nothing is written; a move that raises leaves the source
    and what its fallback copy has written (a file is not copied onto
    itself). *)
Definition shutil_move (o : FileOracle) (src dst : string) : M World unit :=
  emit here (CallMove src dst);;;
  content <- (fun w => match fs w !! src with
                       | Some b => (Ok b, w)
                       | None => (Raise FileNotFoundError, w)
                       end);;
  match o_move o with
  | None => modify (set_fs (fun m => <[dst := content]> (delete src m)))
  | Some fault =>
      match mf_left fault with
      | Some written =>
          if bool_decide (dst = src) then ret tt
          else modify (set_fs (insert dst written))
      | None => ret tt
      end;;;
      raise (mf_exn fault)
  end.

Definition move_processed_file (o : FileOracle) (video_path : string) : M World unit :=
  try_except_else
    (let filename := basename video_path in
     folder <- config_path "processed_folder";;
     let destination := join folder filename in
     shutil_move o video_path destination;;;
     ret (filename, destination))
    (fun e =>
       match e with
       | FileNotFoundError => logging_error here ("File not found: " +:+ video_path)
       | PermissionError => logging_error here ("Permission denied when moving " +:+ video_path)
       | OSError msg => logging_error here ("OS error during move: " +:+ msg)
       | _ => logging_error here ("Unexpected error: " +:+ str_exn e)
       end)
    (fun '(filename, destination) =>
       logging_info here ("moved " +:+ filename +:+ " to " +:+ destination)).

(** *** main.py, [init_config] *)

Definition expected_config_keys : list string :=
  ["input_folder"; "pose_data_folder"; "processed_folder"; "scan_interval_sec";
   "model_path"; "supported_file_formats"; "db_table_name"].

Fixpoint init_config_loop (keys : list string) (response : bool) : M World bool :=
  match keys with
  | [] => ret response
  | key :: rest =>
      match CONFIG !! key with
      | None =>
          logging_error here ("config.json file missing required key: " +:+ key);;;
          init_config_loop rest false
      | Some _ => init_config_loop rest response
      end
  end.

Definition init_config : M World bool :=
  init_config_loop expected_config_keys true.

(** *** postgres_wrapper.py, [PostgresWrapper] *)

(** Modelled from the spec: the table definition is not part of the
    sources.  The spec gives the table a unique constraint on
    [video_filename] (rows are kept by that key) and a server-assigned
    [processed_at]: a row the statement inserts without naming the column
    takes the server's current time. *)
Definition processed_at_default (now : Z) : Z := now.

(** The INSERT ... ON CONFLICT (video_filename) DO UPDATE statement. *)
Definition upsert (now : Z) (row_data : VideoProcessingResultFields)
    (rows : gmap string DbRow) : gmap string DbRow :=
  match rows !! video_filename row_data with
  | None =>
      <[video_filename row_data := mkRow row_data (processed_at_default now)]> rows
  | Some old =>
      (* the conflicting row has the same [video_filename]; the other six
         columns are set from EXCLUDED, [processed_at] to CURRENT_TIMESTAMP *)
      <[video_filename row_data :=
          mkRow (mkFields (video_filename row_data)
                          (duration_seconds row_data) (resolution row_data)
                          (codec row_data) (frame_rate row_data)
                          (corrupted row_data) (pose_file_path row_data))
                now]> rows
  end.

(** [is_connected]: [self.connection is not None and self.connection.closed == 0] *)
Definition connection_live (w : World) : bool :=
  match pg_connection w with
  | Some closed => closed =? 0
  | None => false
  end.

Definition is_connected : M World bool := gets connection_live.

(** A method call on [self.connection]: [AttributeError] on [None], an
    interface error on a closed connection, else what the oracle says. *)
Definition on_connection (fault : option exn) : M World unit :=
  fun w => match pg_connection w with
           | None => (Raise AttributeError, w)
           | Some closed =>
               if closed =? 0 then of_fault fault w
               else (Raise (Exception "connection already closed"), w)
           end.

Definition rows_in_transaction (w : World) : gmap string DbRow :=
  match pg_pending w with
  | Some rows => rows
  | None => pg_rows w
  end.

Definition cursor_execute (o : FileOracle) (row_data : VideoProcessingResultFields)
  : M World unit :=
  of_fault (o_execute o);;;
  modify (fun w => set_pg_pending (Some (upsert (o_now o) row_data (rows_in_transaction w))) w).

Definition connection_commit (o : FileOracle) : M World unit :=
  on_connection (o_commit o);;;
  modify (fun w => set_pg_pending None (set_pg_rows (rows_in_transaction w) w)).

Definition connection_rollback (o : FileOracle) : M World unit :=
  on_connection (o_rollback o);;;
  modify (set_pg_pending None).

Definition db_insert (o : FileOracle) (db_table : cfg_value)
    (row_data : VideoProcessingResultFields) : M World unit :=
  emit here (CallDbInsert db_table row_data);;;
  logging_info here ("inserting " +:+ video_filename row_data);;;
  try_except_else
    (on_connection (o_cursor o);;;
     cursor_execute o row_data;;;
     connection_commit o)
    (fun e =>
       logging_error here ("Error inserting video processing result: " +:+ str_exn e);;;
       connection_rollback o)
    (fun _ =>
       logging_info here
         ("finished inserting video processing result for " +:+ video_filename row_data)).

(** *** main.py, the scan loop *)

(** [open(full_path, 'rb').read()] *)
Definition open_read (o : FileOracle) (path : string) : M World string :=
  fun w => match fs w !! path with
           | None => (Raise FileNotFoundError, w)
           | Some data => match o_open_read o with
                          | None => (Ok data, w)
                          | Some e => (Raise e, w)
                          end
           end.

(** [r.exists(key)]: the number of the given keys that exist. *)
Definition redis_exists (o : FileOracle) (key : string) : M World Z :=
  emit here (CallRedisExists key);;;
  of_fault (o_redis_exists o);;;
  gets (fun w => match redis w !! key with Some _ => 1 | None => 0 end).

(** [r.set(key, value)] *)
Definition redis_set (o : FileOracle) (key val : string) : M World unit :=
  emit here (CallRedisSet key);;;
  of_fault (o_redis_set o);;;
  modify (set_redis (insert key val)).

(** [if db_con.is_connected: db_con.db_insert(...)] *)
Definition persist (o : FileOracle) (video_metadata : VideoProcessingResultFields)
  : M World unit :=
  connected <- is_connected;;
  if connected : bool then
    db_table <- config "db_table_name";;
    db_insert o db_table video_metadata
  else ret tt.

(** The suite under [if should_process:]. *)
Definition process_new (o : FileOracle) (file full_path : string) : M World unit :=
  video_metadata <- extract_metadata o full_path;;
  c <- is_corrupted o full_path;;
  video_metadata <-
    (if negb c then
       p <- pose_detection o full_path;;
       ret (set_corrupted false (set_pose_file_path p video_metadata))
     else
       logging_info here (file +:+ " is corrupted. will not perform pose detection.");;;
       ret (set_corrupted true video_metadata));;
  persist o video_metadata.

(** The [try] suite of the loop body; it leaves [should_process] and
    [file_hash] to the [else] suite. *)
Definition process_try (o : FileOracle) (file full_path : string)
  : M World (bool * string) :=
  logging_info here ("*** got new file to process - " +:+ file +:+ " ***");;;
  data <- open_read o full_path;;
  let file_hash := md5_hexdigest data in
  n <- redis_exists o file_hash;;
  should_process <-
    (if negb (n =? 0) then
       logging_info here
         ("for file " +:+ file +:+ ", hash " +:+ file_hash +:+ " already processed. skipping...");;;
       ret false
     else ret true);;
  (if should_process : bool then process_new o file full_path else ret tt);;;
  ret (should_process, file_hash).

(** The [except] and [else] suites of the loop body. *)
Definition process_except (file : string) (e : exn) : M World unit :=
  logging_error here
    ("error while trying to process " +:+ file +:+ " - " +:+ str_exn e).

Definition process_else (o : FileOracle) (file : string) (r : bool * string)
  : M World unit :=
  let '(should_process, file_hash) := r in
  if should_process : bool then
    logging_info here ("finished processing " +:+ file);;;
    redis_set o file_hash "processed"
  else ret tt.

(** The body of [for file in os.listdir(...)] for a file with a supported
    extension. *)
Definition process_file (o : FileOracle) (file : string) : M World unit :=
  input_folder <- config_path "input_folder";;
  let full_path := join input_folder file in
  try_finally
    (try_except_else
       (process_try o file full_path)
       (process_except file)
       (process_else o file))
    (move_processed_file o full_path).

(** [tuple(CONFIG["supported_file_formats"])]: the entries of a list as
    they are, the characters of a string; a number is not iterable. *)
Definition supported_formats {S} : M S (list cfg_value) :=
  v <- config "supported_file_formats";;
  match v with
  | CfgList l => ret l
  | CfgStr s => ret ((fun c => CfgStr (String c EmptyString)) <$> list_ascii_of_string s)
  | CfgNum _ => raise TypeError
  end.

(** [s.endswith(sufs)] for the tuple as config.json gives it: the entries
    are tried in order, and an entry that is not a string raises
    [TypeError] when it is reached. *)
Fixpoint endswith_tuple (s : string) (sufs : list cfg_value) : result bool :=
  match sufs with
  | [] => Ok false
  | CfgStr suf :: rest => if endswith s suf then Ok true else endswith_tuple s rest
  | _ :: _ => Raise TypeError
  end.

(** The [for] loop over one directory listing.  The test of the extension
    is outside the [try] of the loop body. *)
Definition scan_tuple (oracle : string -> FileOracle) (formats : list cfg_value)
    (listing : list string) : M World unit :=
  for_each listing (fun file =>
    selected <- of_result (endswith_tuple (lower file) formats);;
    if selected : bool
    then process_file (oracle file) file
    else ret tt).

(** The same loop for a tuple that holds strings only, where the test
    cannot raise ([scan_tuple_strings] below). *)
Definition scan_listing (oracle : string -> FileOracle) (formats : list string)
    (listing : list string) : M World unit :=
  for_each listing (fun file =>
    if endswith_any (lower file) formats
    then process_file (oracle file) file
    else ret tt).

(** [os.listdir(dir)]: the exception the operating system raises, if any
    (the folder may have been removed or closed to the process), else the
    names of the files directly in [dir], in the order the map gives
    them. *)
Definition listdir (fault : option exn) (dir : string) : M World (list string) :=
  of_fault fault;;;
  gets (fun w =>
    omap (fun path =>
            let name := basename path in
            if bool_decide (name <> EmptyString /\ join dir name = path)
            then Some name else None)
         (elements (dom (fs w)))).

(** The behaviour of the outside world during one turn of [while True]:
    what [os.listdir] raises, if anything, and the oracle of each file. *)
Record CycleOracle : Type := mkCycle {
  c_listdir : option exn;
  c_file : string -> FileOracle
}.

(** [time.sleep(secs)] for a value of config.json: an integer number of
    seconds is converted to nanoseconds in a signed 64-bit integer
    ([OverflowError] when it does not fit) and must not be negative
    ([ValueError]); a string or a list is not a number ([TypeError]). *)
Definition time_sleep (secs : cfg_value) : result unit :=
  match secs with
  | CfgNum n =>
      if (n * 10 ^ 9 <? - 2 ^ 63) || (2 ^ 63 - 1 <? n * 10 ^ 9)
      then Raise OverflowError
      else if n <? 0 then Raise ValueError
      else Ok tt
  | _ => Raise TypeError
  end.

(** One turn of [while True]. *)
Definition scan_cycle (oc : CycleOracle) (formats : list cfg_value)
  : M World unit :=
  logging_info here "Scanning for new videos...";;;
  input_folder <- config_path "input_folder";;
  listing <- listdir (c_listdir oc) input_folder;;
  scan_tuple (c_file oc) formats listing;;;
  interval <- config "scan_interval_sec";;
  logging_info here "Waiting...";;;
  of_result (time_sleep interval).

(** How a run of the program stands: exited through [sys.exit], ended by
    an uncaught exception, or still in its loop. *)
Inductive status : Type :=
| Exited (code : Z)
| Crashed (e : exn)
| Running.

(** [cycles] turns of the [while True] loop; [arrivals k] are the files
    that other processes drop into the file system during the [k]-th
    sleep. *)
Fixpoint scan_loop (env : nat -> CycleOracle) (formats : list cfg_value)
    (arrivals : nat -> gmap string string) (cycles k : nat) (w : World)
  : status * World :=
  match cycles with
  | O => (Running, w)
  | S cycles' =>
      match scan_cycle (env k) formats w with
      | (Raise e, w1) => (Crashed e, w1)
      | (Ok _, w1) =>
          scan_loop env formats arrivals cycles' (S k)
                    (set_fs (fun m => arrivals k ∪ m) w1)
      end
  end.

(** What happens once at start-up, outside the per-file oracles. *)
Record BootOracle : Type := mkBoot {
  b_yolo : option exn;          (* YOLO(CONFIG["model_path"]) *)
  b_makedirs : option exn;      (* os.makedirs(..., exist_ok=True) *)
  b_connect : result Z          (* psycopg2.connect: the connection's [closed] *)
}.

(** [PostgresWrapper()]: [db_connect] logs a failure and leaves
    [self.connection] at [None].  The handlers for the three error classes
    of psycopg2 differ from the last one in the wording of the log line
    only; the last one is the one written here. *)
Definition db_connect (boot : BootOracle) : M World unit :=
  try_except
    (closed <- of_result (b_connect boot);;
     logging_info here "successfully connected to database";;;
     modify (set_pg_connection (Some closed)))
    (fun e => logging_error here ("failed to connect to postgresSQL - " +:+ str_exn e)).

(** The module level of main.py and the statements of [__main__] before
    the loop; [inl code] stands for [sys.exit(code)]. *)
Definition startup (boot : BootOracle) : M World (Z + list cfg_value) :=
  config "model_path";;;
  of_fault (b_yolo boot);;;
  valid_config <- init_config;;
  if negb valid_config then
    logging_error here "init configuration failed, please check config.json. exiting...";;;
    ret (inl 1)
  else
    config_path "input_folder";;; of_fault (b_makedirs boot);;;
    config_path "pose_data_folder";;; of_fault (b_makedirs boot);;;
    config_path "processed_folder";;; of_fault (b_makedirs boot);;;
    formats <- supported_formats;;
    modify (set_pg_connection None);;;
    db_connect boot;;;
    ret (inr formats).

Definition main (boot : BootOracle) (env : nat -> CycleOracle)
    (arrivals : nat -> gmap string string) (cycles : nat) (w : World)
  : status * World :=
  match startup boot w with
  | (Raise e, w1) => (Crashed e, w1)
  | (Ok (inl code), w1) => (Exited code, w1)
  | (Ok (inr formats), w1) => scan_loop env formats arrivals cycles O w1
  end.

End Pipeline.

(** ** Vocabulary of the properties *)

(** [pres R proj c]: whatever [c] returns or raises, the world it leaves is
    related by [R] to the world it started in. *)
Definition pres {S A} (R : World -> World -> Prop) (proj : S -> World)
    (c : M S A) : Prop :=
  forall s, R (proj s) (proj (snd (c s))).

(** *** What a statement may touch *)

(** A footprint: the paths and Redis keys a statement may write, whether it
    may write the result table, and the calls it may make. *)
Record footprint : Type := mkFootprint {
  fp_path : string -> Prop;
  fp_key : string -> Prop;
  fp_pg : Prop;
  fp_event : Event -> Prop
}.

(** [within F w w']: [w'] differs from [w] inside the footprint only; the
    log and the trace grow, Redis keys are never removed, the connection
    object is not replaced. *)
Definition within (F : footprint) (w w' : World) : Prop :=
  (forall p, ~ fp_path F p -> fs w' !! p = fs w !! p) /\
  (forall k, ~ fp_key F k -> redis w' !! k = redis w !! k) /\
  (forall k, is_Some (redis w !! k) -> is_Some (redis w' !! k)) /\
  pg_connection w' = pg_connection w /\
  (~ fp_pg F -> pg_rows w' = pg_rows w /\ pg_pending w' = pg_pending w) /\
  (exists added, trace w' = trace w ++ added /\ Forall (fp_event F) added).


(** *** The metadata probe *)

(** The objects [extract_metadata] can return for a file name: the fresh
    dataclass with a prefix of the four assignments of the [try] suite. *)
Inductive populated (filename : string) : VideoProcessingResultFields -> Prop :=
| populated_none : populated filename (new_fields filename)
| populated_frame_rate fr :
    populated filename (set_frame_rate fr (new_fields filename))
| populated_duration fr d :
    populated filename
      (set_duration_seconds d (set_frame_rate fr (new_fields filename)))
| populated_resolution fr d r :
    populated filename
      (set_resolution r
         (set_duration_seconds d (set_frame_rate fr (new_fields filename))))
| populated_codec fr d r c :
    populated filename
      (set_codec c
         (set_resolution r
            (set_duration_seconds d (set_frame_rate fr (new_fields filename))))).

(** The [try] statement of [extract_metadata], from the fresh object. *)
Definition probe_statement (o : FileOracle) (video_path : string)
  : M (VideoProcessingResultFields * World) unit :=
  try_except_else
    (extract_metadata_try o video_path)
    (fun e => logging_error under
       ("error while trying to extract metadata for file " +:+ video_path
          +:+ " - " +:+ str_exn e))
    (fun _ => logging_info under
       ("finished extracting metadata for file " +:+ video_path)).


(** The duration as the design document words it: [frame_count /
    frame_rate], or 0 if the frame rate is zero or unavailable.  The zero
    of an unavailable rate is the default [0.0] of the dataclass, the zero
    of a zero rate the [int] the conditional expression gives. *)
Definition spec_duration (probe : result (Z * float)) : value :=
  match probe with
  | Ok (frame_count, fps) =>
      if truthy fps then
        match truediv frame_count fps with
        | Ok d => Float d
        | Raise _ => Float 0%float
        end
      else Int 0
  | Raise _ => Float 0%float
  end.



(** The object [extract_metadata] returns. *)
Definition probed (o : FileOracle) (video_path : string) (w : World)
  : result VideoProcessingResultFields :=
  fst (extract_metadata o video_path w).


(** An outside world in which nothing fails, around a given decoder. *)
Definition calm_oracle (cap : Capture) (now : Z) : FileOracle :=
  {| o_open_read := None;
     o_redis_exists := None;
     o_probe_capture := Ok cap;
     o_ffprobe := Ok (Some [Some "h264"]);
     o_check_capture := Ok cap;
     o_pose_capture := Ok cap;
     o_predict := fun _ => Ok [];
     o_open_write := None;
     o_json_dump := None;
     o_cursor := None;
     o_execute := None;
     o_commit := None;
     o_rollback := None;
     o_now := now;
     o_redis_set := None;
     o_move := None |}.

Definition empty_world : World :=
  {| fs := ∅; redis := ∅; pg_connection := None; pg_rows := ∅;
     pg_pending := None; log := []; trace := [] |}.


(** *** The result store *)

(** No call on the connection or the cursor fails during the upsert. *)
Definition no_db_fault (o : FileOracle) : Prop :=
  o_cursor o = None /\ o_execute o = None /\ o_commit o = None.

(** The upsert meets an error in one of its three calls. *)
Definition db_fault (o : FileOracle) (e : exn) : Prop :=
  o_cursor o = Some e
  \/ (o_cursor o = None /\ o_execute o = Some e)
  \/ (o_cursor o = None /\ o_execute o = None /\ o_commit o = Some e).

(** The sentence of the design document on a failing upsert: rolled back,
    and the error handed to the caller. *)
Definition upsert_errors_reported : Prop :=
  forall o db_table row_data w e,
    pg_connection w = Some 0 -> pg_pending w = None -> db_fault o e ->
    pg_rows (snd (db_insert o db_table row_data w)) = pg_rows w
    /\ is_ok (fst (db_insert o db_table row_data w)) = false.

(** The upsert-overwrite sentence of the design document, as written: of
    two successive upserts for one file name with different field values,
    neither failing, the second leaves its field values and a stamp
    strictly later than the one the first left. *)
Definition upsert_stamp_strictly_later : Prop :=
  forall o1 o2 db_table r1 r2 w,
    pg_connection w = Some 0 -> pg_pending w = None ->
    no_db_fault o1 -> no_db_fault o2 ->
    video_filename r1 = video_filename r2 -> r1 <> r2 ->
    forall row1 row2,
      pg_rows (snd (db_insert o1 db_table r1 w)) !! video_filename r1 = Some row1 ->
      pg_rows (snd (db_insert o2 db_table r2 (snd (db_insert o1 db_table r1 w))))
        !! video_filename r1 = Some row2 ->
      row_fields row2 = r2 /\ processed_at row1 < processed_at row2.

(** A world with a live connection and an empty table. *)
Definition connected_world : World :=
  {| fs := ∅; redis := ∅; pg_connection := Some 0; pg_rows := ∅;
     pg_pending := None; log := []; trace := [] |}.

(** A decoder that reads a ten-frame clip at five frames per second. *)
Definition clip_capture : Capture :=
  {| cap_isOpened := true;
     cap_frame_count := Ok 10%float;
     cap_fps := Ok 5%float;
     cap_frame_width := Ok 640%float;
     cap_frame_height := Ok 480%float;
     cap_reads := repeat (Ok (true, Some [0])) 10;
     cap_release := None |}.

(** The calm outside world, except that [cursor.execute] fails. *)
Definition execute_fails : FileOracle :=
  {| o_open_read := None;
     o_redis_exists := None;
     o_probe_capture := Ok clip_capture;
     o_ffprobe := Ok (Some [Some "h264"]);
     o_check_capture := Ok clip_capture;
     o_pose_capture := Ok clip_capture;
     o_predict := fun _ => Ok [];
     o_open_write := None;
     o_json_dump := None;
     o_cursor := None;
     o_execute := Some (Exception "relation does not exist");
     o_commit := None;
     o_rollback := None;
     o_now := 1;
     o_redis_set := None;
     o_move := None |}.

(** *** The scan loop *)

(** The sidecar path [pose_detection] writes for a video. *)
Definition pose_path (CONFIG : gmap string cfg_value) (video_path p : string) : Prop :=
  exists folder,
    CONFIG !! "pose_data_folder" = Some (CfgStr folder)
    /\ p = join folder (fst (splitext (basename video_path)) +:+ "_pose.json").

(** What the probe and the corruption check may do: two calls, no write. *)
Definition probe_footprint (video_path : string) : footprint :=
  {| fp_path := fun _ => False;
     fp_key := fun _ => False;
     fp_pg := False;
     fp_event := fun e => e = CallExtractMetadata video_path
                          \/ e = CallIsCorrupted video_path |}.

(** What [pose_detection] may do: its calls and the sidecar. *)
Definition pose_footprint (CONFIG : gmap string cfg_value) (video_path : string)
  : footprint :=
  {| fp_path := pose_path CONFIG video_path;
     fp_key := fun _ => False;
     fp_pg := False;
     fp_event := fun e => e = CallPoseDetection video_path
                          \/ exists frame, e = CallPredict frame |}.

(** What the persistence step may do with a record. *)
Definition persist_footprint (row_data : VideoProcessingResultFields) : footprint :=
  {| fp_path := fun _ => False;
     fp_key := fun _ => False;
     fp_pg := True;
     fp_event := fun e => exists db_table, e = CallDbInsert db_table row_data |}.

(** What the [try], [except] and [else] suites of the loop body may do
    for a file: every call but the move, every store but the file itself. *)
Definition attempt_footprint (CONFIG : gmap string cfg_value) (full_path : string)
  : footprint :=
  {| fp_path := pose_path CONFIG full_path;
     fp_key := fun _ => True;
     fp_pg := True;
     fp_event := fun e => forall src dst, e <> CallMove src dst |}.

(** The world once the [try] suite has read the file and asked Redis. *)
Definition entered (file file_hash : string) (w : World) : World :=
  add_event (CallRedisExists file_hash)
    (add_log INFO ("*** got new file to process - " +:+ file +:+ " ***") w).

(** The calls that do work on a video: probe, check, inference, upsert. *)
Definition work_event (e : Event) : Prop :=
  match e with
  | CallExtractMetadata _ | CallIsCorrupted _ | CallPoseDetection _
  | CallPredict _ | CallDbInsert _ _ => True
  | _ => False
  end.

(** What [shutil_move] leaves of a file system: the file under its new
    name; after a move that raises, the source and what the fallback copy
    has written; the file system as it was when there is no source. *)
Definition moved (o : FileOracle) (src dst : string) (m : gmap string string)
  : gmap string string :=
  match m !! src, o_move o with
  | Some data, None => <[dst := data]> (delete src m)
  | Some _, Some fault =>
      match mf_left fault with
      | Some written => if bool_decide (dst = src) then m else <[dst := written]> m
      | None => m
      end
  | None, _ => m
  end.


(** *** Concrete runs *)

Definition demo_config : gmap string cfg_value :=
  list_to_map
    [("input_folder", CfgStr "in"); ("pose_data_folder", CfgStr "pose");
     ("processed_folder", CfgStr "done"); ("scan_interval_sec", CfgNum 5);
     ("model_path", CfgStr "yolo11n-pose.pt");
     ("supported_file_formats", CfgList [CfgStr ".mp4"; CfgStr ".avi"]);
     ("db_table_name", CfgStr "video_processing_results")].

(** Stand-ins for the digest and for the JSON text, enough to tell
    contents apart. *)
Definition demo_md5 (data : string) : string := "md5:" +:+ data.
Definition demo_json (pose_data : list (Z * Keypoints)) : string :=
  "frames:" +:+ pretty (Z.of_nat (length pose_data)).


Definition mark_fails : FileOracle :=
  {| o_open_read := None;
     o_redis_exists := None;
     o_probe_capture := Ok clip_capture;
     o_ffprobe := Ok (Some [Some "h264"]);
     o_check_capture := Ok clip_capture;
     o_pose_capture := Ok clip_capture;
     o_predict := fun _ => Ok [];
     o_open_write := None;
     o_json_dump := None;
     o_cursor := None;
     o_execute := None;
     o_commit := None;
     o_rollback := None;
     o_now := 1;
     o_redis_set := Some (Exception "Connection reset by peer");
     o_move := None |}.

Definition sidecar_write_fails : FileOracle :=
  {| o_open_read := None;
     o_redis_exists := None;
     o_probe_capture := Ok clip_capture;
     o_ffprobe := Ok (Some [Some "h264"]);
     o_check_capture := Ok clip_capture;
     o_pose_capture := Ok clip_capture;
     o_predict := fun _ => Ok [];
     o_open_write := Some PermissionError;
     o_json_dump := None;
     o_cursor := None;
     o_execute := None;
     o_commit := None;
     o_rollback := None;
     o_now := 1;
     o_redis_set := None;
     o_move := None |}.

(** Two clips in the input directory, a live connection, empty stores. *)
Definition two_clips : World :=
  {| fs := list_to_map [("in/a.mp4", "AAAA"); ("in/b.mp4", "BBBB")];
     redis := ∅; pg_connection := Some 0; pg_rows := ∅;
     pg_pending := None; log := []; trace := [] |}.

(** The same directory with the database down. *)
Definition two_clips_offline : World :=
  {| fs := list_to_map [("in/a.mp4", "AAAA"); ("in/b.mp4", "BBBB")];
     redis := ∅; pg_connection := None; pg_rows := ∅;
     pg_pending := None; log := []; trace := [] |}.

(** What the probe, the check and the pose extraction may do together:
    no upsert, no write besides the sidecar. *)
Definition analysis_footprint (CONFIG : gmap string cfg_value) (full_path : string)
  : footprint :=
  {| fp_path := pose_path CONFIG full_path;
     fp_key := fun _ => False;
     fp_pg := False;
     fp_event := fun e => work_event e
                          /\ forall db_table row_data, e <> CallDbInsert db_table row_data |}.

(** What the [except] and [else] suites and the move may do: no work on a
    video and no write to the result table. *)
Definition tail_footprint : footprint :=
  {| fp_path := fun _ => True;
     fp_key := fun _ => True;
     fp_pg := False;
     fp_event := fun e => ~ work_event e |}.

(** The record the pipeline hands to the store, from the probed object
    and the verdict of the corruption check. *)
Definition record_of (o : FileOracle) (full_path : string)
    (m row_data : VideoProcessingResultFields) : Prop :=
  (row_data = set_corrupted true m
   /\ exists w1, fst (is_corrupted o full_path w1) = Ok true)
  \/ (exists p w1, row_data = set_corrupted false (set_pose_file_path p m)
                   /\ fst (is_corrupted o full_path w1) = Ok false).

(** The calls a corrupted file may cause: no pose extraction, no
    inference, and an upsert only of a record marked corrupted, without
    sidecar. *)
Definition corrupted_event (e : Event) : Prop :=
  match e with
  | CallPoseDetection _ | CallPredict _ => False
  | CallDbInsert _ row_data =>
      corrupted row_data = Some true /\ pose_file_path row_data = "N/A"
  | _ => True
  end.

Definition corrupted_footprint : footprint :=
  {| fp_path := fun _ => True;
     fp_key := fun _ => True;
     fp_pg := True;
     fp_event := corrupted_event |}.

(** The invariant of the data model on a fingerprint, for a file whose
    fingerprint is not marked and whose name has no row yet when its turn
    comes. *)
Definition marked_iff_recorded_and_relocated : Prop :=
  forall CONFIG md5_hexdigest json_dumps o file w inp proc data,
    CONFIG !! "input_folder" = Some (CfgStr inp) ->
    CONFIG !! "processed_folder" = Some (CfgStr proc) ->
    join inp file <> join proc (basename (join inp file)) ->
    fs w !! join inp file = Some data ->
    redis w !! md5_hexdigest data = None ->
    pg_rows w !! basename (join inp file) = None ->
    pg_pending w = None ->
    let w' := snd (process_file CONFIG md5_hexdigest json_dumps o file w) in
    is_Some (redis w' !! md5_hexdigest data)
    <-> (is_Some (pg_rows w' !! basename (join inp file))
         /\ fs w' !! join inp file = None
         /\ is_Some (fs w' !! join proc (basename (join inp file)))).

(** A decoder that opens the stream and reads no frame from it. *)
Definition unreadable_capture : Capture :=
  {| cap_isOpened := true;
     cap_frame_count := Ok 0%float;
     cap_fps := Ok 0%float;
     cap_frame_width := Ok 0%float;
     cap_frame_height := Ok 0%float;
     cap_reads := [];
     cap_release := None |}.

(** *** Vocabulary of the further properties *)

(** The expected keys that config.json lacks, in the order of the list. *)
Definition missing_keys (CONFIG : gmap string cfg_value) : list string :=
  filter (fun key => ~ is_Some (CONFIG !! key)) expected_config_keys.

(** The log line of [init_config] for a missing key. *)
Definition missing_key_line (key : string) : level * string :=
  (ERROR, "config.json file missing required key: " +:+ key).

(** A string with an ASCII capital letter in it. *)
Fixpoint has_upper (s : string) : bool :=
  match s with
  | EmptyString => false
  | String c rest =>
      ((65 <=? nat_of_ascii c) && (nat_of_ascii c <=? 90))%nat || has_upper rest
  end.

(** A name of ASCII characters only: on such a name the [lower] of this
    development is the [lower()] of Python. *)
Fixpoint ascii_only (s : string) : bool :=
  match s with
  | EmptyString => true
  | String c rest => (nat_of_ascii c <? 128)%nat && ascii_only rest
  end.

(** The pairs of the moves in a sequence of calls. *)
Definition moves (t : list Event) : list (string * string) :=
  omap (fun e => match e with
                 | CallMove src dst => Some (src, dst)
                 | _ => None
                 end) t.

(** What the pose loop records for the keypoints of successive frames:
    each with its index, from [start]. *)
Definition numbered (start : Z) (kps : list Keypoints) : list (Z * Keypoints) :=
  imap (fun j k => (start + Z.of_nat j, k)) kps.

(** A footprint that allows everything. *)
Definition any_footprint : footprint :=
  {| fp_path := fun _ => True; fp_key := fun _ => True;
     fp_pg := True; fp_event := fun _ => True |}.

(** A footprint that allows everything but a write to Redis. *)
Definition no_key_footprint : footprint :=
  {| fp_path := fun _ => True; fp_key := fun _ => False;
     fp_pg := True; fp_event := fun _ => True |}.

(** The calm outside world around the ten-frame clip, except that ffprobe
    cannot be run. *)
Definition ffprobe_fails : FileOracle :=
  {| o_open_read := None;
     o_redis_exists := None;
     o_probe_capture := Ok clip_capture;
     o_ffprobe := Raise (Exception "ffprobe not found");
     o_check_capture := Ok clip_capture;
     o_pose_capture := Ok clip_capture;
     o_predict := fun _ => Ok [];
     o_open_write := None;
     o_json_dump := None;
     o_cursor := None;
     o_execute := None;
     o_commit := None;
     o_rollback := None;
     o_now := 1;
     o_redis_set := None;
     o_move := None |}.

(** The same, except that the inference fails on every frame. *)
Definition model_fails : FileOracle :=
  {| o_open_read := None;
     o_redis_exists := None;
     o_probe_capture := Ok clip_capture;
     o_ffprobe := Ok (Some [Some "h264"]);
     o_check_capture := Ok clip_capture;
     o_pose_capture := Ok clip_capture;
     o_predict := fun _ => Raise (Exception "CUDA out of memory");
     o_open_write := None;
     o_json_dump := None;
     o_cursor := None;
     o_execute := None;
     o_commit := None;
     o_rollback := None;
     o_now := 1;
     o_redis_set := None;
     o_move := None |}.

(** The same, except that the file cannot be opened for reading. *)
Definition read_fails : FileOracle :=
  {| o_open_read := Some PermissionError;
     o_redis_exists := None;
     o_probe_capture := Ok clip_capture;
     o_ffprobe := Ok (Some [Some "h264"]);
     o_check_capture := Ok clip_capture;
     o_pose_capture := Ok clip_capture;
     o_predict := fun _ => Ok [];
     o_open_write := None;
     o_json_dump := None;
     o_cursor := None;
     o_execute := None;
     o_commit := None;
     o_rollback := None;
     o_now := 1;
     o_redis_set := None;
     o_move := None |}.

(** The same, except that the move fails once its fallback copy is made:
    the source cannot be unlinked. *)
Definition unlink_fails : FileOracle :=
  {| o_open_read := None;
     o_redis_exists := None;
     o_probe_capture := Ok clip_capture;
     o_ffprobe := Ok (Some [Some "h264"]);
     o_check_capture := Ok clip_capture;
     o_pose_capture := Ok clip_capture;
     o_predict := fun _ => Ok [];
     o_open_write := None;
     o_json_dump := None;
     o_cursor := None;
     o_execute := None;
     o_commit := None;
     o_rollback := None;
     o_now := 1;
     o_redis_set := None;
     o_move := Some {| mf_exn := PermissionError; mf_left := Some "AAAA" |} |}.

(** A cycle in which the listing is read and nothing fails on any file,
    and one in which the inference fails on every file. *)
Definition calm_cycle : CycleOracle :=
  {| c_listdir := None; c_file := fun _ => calm_oracle clip_capture 1 |}.

Definition model_fails_cycle : CycleOracle :=
  {| c_listdir := None; c_file := fun _ => model_fails |}.

(** A decoder that does not open its stream. *)
Definition closed_capture : Capture :=
  {| cap_isOpened := false;
     cap_frame_count := Ok 0%float;
     cap_fps := Ok 0%float;
     cap_frame_width := Ok 0%float;
     cap_frame_height := Ok 0%float;
     cap_reads := [];
     cap_release := None |}.

(** config.json without its table name, and with a number for the input
    folder. *)
Definition incomplete_config : gmap string cfg_value :=
  delete "db_table_name" demo_config.

Definition mistyped_config : gmap string cfg_value :=
  <["input_folder" := CfgNum 7]> demo_config.

(** config.json with a negative scan interval. *)
Definition negative_interval_config : gmap string cfg_value :=
  <["scan_interval_sec" := CfgNum (-5)]> demo_config.

(** A start in which the database refuses the connection. *)
Definition database_down : BootOracle :=
  {| b_yolo := None; b_makedirs := None;
     b_connect := Raise (Exception "connection refused") |}.

(** ** Reasoning about statements *)

Section Preservation.

Context (R : World -> World -> Prop) `{!Reflexive R} `{!Transitive R}.
Context {S : Type} (proj : S -> World).

Local Abbreviation pres := (pres R proj).

Lemma pres_ret {A} (a : A) : pres (ret a).
Proof. intros s. reflexivity. Qed.

Lemma pres_raise {A} (e : exn) : pres (@raise S A e).
Proof. intros s. reflexivity. Qed.

Lemma pres_of_result {A} (r : result A) : pres (of_result r).
Proof. intros s. reflexivity. Qed.

Lemma pres_of_fault (f : option exn) : pres (of_fault f).
Proof. intros s. unfold of_fault. destruct f; reflexivity. Qed.

Lemma pres_gets {A} (f : S -> A) : pres (gets f).
Proof. intros s. reflexivity. Qed.

Lemma pres_modify (f : S -> S) :
  (forall s, R (proj s) (proj (f s))) -> pres (modify f).
Proof. intros H s. apply H. Qed.

Lemma pres_bind {A B} (c : M S A) (k : A -> M S B) :
  pres c -> (forall a, pres (k a)) -> pres (bind c k).
Proof.
  intros Hc Hk s. unfold bind. specialize (Hc s).
  destruct (c s) as [[a | e] s1]; simpl in *; [| exact Hc].
  etransitivity; [exact Hc | apply Hk].
Qed.

Lemma pres_try_except_else {A B} (body : M S A) (handler : exn -> M S B)
    (els : A -> M S B) :
  pres body -> (forall e, pres (handler e)) -> (forall a, pres (els a)) ->
  pres (try_except_else body handler els).
Proof.
  intros Hb Hh He s. unfold try_except_else. specialize (Hb s).
  destruct (body s) as [[a | e] s1]; simpl in *;
    (etransitivity; [exact Hb |]); [apply He | apply Hh].
Qed.

Lemma pres_try_except {A} (body : M S A) (handler : exn -> M S A) :
  pres body -> (forall e, pres (handler e)) -> pres (try_except body handler).
Proof.
  intros Hb Hh. apply pres_try_except_else; auto. intros a. apply pres_ret.
Qed.

Lemma pres_try_finally {A} (body : M S A) (fin : M S unit) :
  pres body -> pres fin -> pres (try_finally body fin).
Proof.
  intros Hb Hf s. unfold try_finally. specialize (Hb s).
  destruct (body s) as [r s1]. specialize (Hf s1).
  destruct (fin s1) as [[u | e] s2]; simpl in *; etransitivity; eauto.
Qed.


End Preservation.

Lemma pres_finally_return (R : World -> World -> Prop) {L A B}
    (stmt : M (L * World) A) (v : L * World -> B) :
  pres R snd stmt -> pres R snd (finally_return stmt v).
Proof.
  intros H s. unfold finally_return. specialize (H s).
  destruct (stmt s) as [r s1]. exact H.
Qed.

Lemma pres_with_local (R : World -> World -> Prop) {L A} (l0 : L)
    (c : M (L * World) A) :
  pres R snd c -> pres R id (with_local l0 c).
Proof.
  intros H w. unfold with_local. specialize (H (l0, w)).
  destruct (c (l0, w)) as [r [l1 w1]]. exact H.
Qed.

#[global] Instance within_refl F : Reflexive (within F).
Proof.
  intros w. unfold within. repeat split; auto.
  exists []. split; [by rewrite app_nil_r | constructor].
Qed.

#[global] Instance within_trans F : Transitive (within F).
Proof.
  intros w1 w2 w3 (Hf1 & Hk1 & Hm1 & Hc1 & Hp1 & a1 & Ht1 & Ha1)
                   (Hf2 & Hk2 & Hm2 & Hc2 & Hp2 & a2 & Ht2 & Ha2).
  unfold within. repeat split.
  - intros p Hp. rewrite Hf2, Hf1; auto.
  - intros k Hk. rewrite Hk2, Hk1; auto.
  - auto.
  - congruence.
  - destruct (Hp1 H), (Hp2 H). congruence.
  - destruct (Hp1 H), (Hp2 H). congruence.
  - exists (a1 ++ a2). split.
    + rewrite Ht2, Ht1. by rewrite app_assoc.
    + apply Forall_app. auto.
Qed.

Lemma within_add_log F l msg w : within F w (add_log l msg w).
Proof.
  unfold within; simpl. repeat split; auto.
  exists []. split; [by rewrite app_nil_r | constructor].
Qed.

Lemma within_add_event F e w : fp_event F e -> within F w (add_event e w).
Proof.
  intros He. unfold within; simpl. repeat split; auto.
  exists [e]. split; [done | by constructor].
Qed.

Lemma within_set_fs_insert F p v w :
  fp_path F p -> within F w (set_fs (insert p v) w).
Proof.
  intros Hp. unfold within; simpl. repeat split; auto.
  - intros q Hq. apply lookup_insert_ne. intros ->. contradiction.
  - exists []. split; [by rewrite app_nil_r | constructor].
Qed.

Lemma within_set_redis_insert F k v w :
  fp_key F k -> within F w (set_redis (insert k v) w).
Proof.
  intros Hk. unfold within; simpl. repeat split; auto.
  - intros q Hq. apply lookup_insert_ne. intros ->. contradiction.
  - intros q Hq. destruct (decide (k = q)) as [-> |].
    + rewrite lookup_insert_eq. eauto.
    + by rewrite lookup_insert_ne.
  - exists []. split; [by rewrite app_nil_r | constructor].
Qed.

Lemma within_set_pg F w rows pending :
  fp_pg F -> within F w (set_pg_pending pending (set_pg_rows rows w)).
Proof.
  intros Hpg. unfold within; simpl. repeat split; auto; try contradiction.
  exists []. split; [by rewrite app_nil_r | constructor].
Qed.

Lemma within_set_pg_pending F w pending :
  fp_pg F -> within F w (set_pg_pending pending w).
Proof.
  intros Hpg. unfold within; simpl. repeat split; auto; try contradiction.
  exists []. split; [by rewrite app_nil_r | constructor].
Qed.

(** A larger footprint allows what a smaller one does. *)
Lemma within_weaken (F G : footprint) w w' :
  (forall p, fp_path F p -> fp_path G p) ->
  (forall k, fp_key F k -> fp_key G k) ->
  (fp_pg F -> fp_pg G) ->
  (forall e, fp_event F e -> fp_event G e) ->
  within F w w' -> within G w w'.
Proof.
  intros Hp Hk Hg He (Hf1 & Hk1 & Hm1 & Hc1 & Hp1 & a1 & Ht1 & Ha1).
  unfold within. split; [| split; [| split; [| split; [| split]]]].
  - intros p Hn. apply Hf1. auto.
  - intros k Hn. apply Hk1. auto.
  - exact Hm1.
  - exact Hc1.
  - intros Hn. apply Hp1. auto.
  - exists a1. split; [done |]. eapply Forall_impl; eauto.
Qed.

Ltac pres_modify_step :=
  apply pres_modify; intros ?; unfold here, under, id; simpl.

Ltac pres_step :=
  lazymatch goal with
  | |- pres _ _ (bind _ _) => apply pres_bind; [typeclasses eauto | | intros ?]
  | |- pres _ _ (ret _) => apply pres_ret; typeclasses eauto
  | |- pres _ _ (raise _) => apply pres_raise; typeclasses eauto
  | |- pres _ _ (of_result _) => apply pres_of_result; typeclasses eauto
  | |- pres _ _ (of_fault _) => apply pres_of_fault; typeclasses eauto
  | |- pres _ _ (gets _) => apply pres_gets; typeclasses eauto
  | |- pres _ _ (try_except_else _ _ _) =>
      apply pres_try_except_else; [typeclasses eauto | | intros ? | intros ?]
  | |- pres _ _ (try_except _ _) =>
      apply pres_try_except; [typeclasses eauto | typeclasses eauto | | intros ?]
  | |- pres _ _ (try_finally _ _) => apply pres_try_finally; [typeclasses eauto | |]
  | |- pres _ _ (logging_info _ _) => pres_modify_step; apply within_add_log
  | |- pres _ _ (logging_error _ _) => pres_modify_step; apply within_add_log
  | |- pres _ _ (emit _ _) => pres_modify_step; apply within_add_event
  | |- pres _ _ (assign _) => pres_modify_step; reflexivity
  | |- pres _ _ (if ?b then _ else _) => destruct b
  | |- pres _ _ (match ?x with _ => _ end) => destruct x
  end.

Ltac pres_auto := repeat (pres_step; auto).

(** ** Footprints of the functions *)

Section Footprints.

Variable CONFIG : gmap string cfg_value.
Variable md5_hexdigest : string -> string.
Variable json_dumps : list (Z * Keypoints) -> string.
Variable F : footprint.

Lemma config_within {S} (proj : S -> World) key :
  pres (within F) proj (config CONFIG key).
Proof. unfold config. pres_auto. Qed.

Lemma config_path_within {S} (proj : S -> World) key :
  pres (within F) proj (config_path CONFIG key).
Proof. unfold config_path. pres_step; [apply config_within |]. pres_auto. Qed.

(** A continuation of [config_path] only runs on a string of [CONFIG]. *)
Lemma pres_bind_config_path {S A} (proj : S -> World) key (k : string -> M S A) :
  (forall s, CONFIG !! key = Some (CfgStr s) -> pres (within F) proj (k s)) ->
  pres (within F) proj (bind (config_path CONFIG key) k).
Proof.
  intros Hk s. unfold bind, config_path, config, of_result; simpl.
  destruct (CONFIG !! key) as [[v | n | l] |] eqn:E; simpl; try reflexivity.
  by apply Hk.
Qed.

Lemma get_video_codec_within {L} o video_path :
  pres (within F) snd (get_video_codec (S := L * World) under o video_path).
Proof. unfold get_video_codec. pres_auto. Qed.

Lemma extract_metadata_within o video_path :
  fp_event F (CallExtractMetadata video_path) ->
  pres (within F) id (extract_metadata o video_path).
Proof.
  intros He. unfold extract_metadata. pres_step; [pres_auto |].
  apply pres_with_local, pres_finally_return.
  unfold extract_metadata_try.
  pres_auto. apply get_video_codec_within.
Qed.

Lemma is_corrupted_within o video_path :
  fp_event F (CallIsCorrupted video_path) ->
  pres (within F) id (is_corrupted o video_path).
Proof. intros He. unfold is_corrupted. pres_auto. Qed.

Lemma pose_loop_within o reads frame_count pose_data :
  (forall frame, fp_event F (CallPredict frame)) ->
  pres (within F) id (pose_loop o reads frame_count pose_data).
Proof.
  intros He. revert frame_count pose_data.
  induction reads as [| r rest IH]; intros; simpl; pres_auto.
Qed.

Lemma pose_detection_within o video_path :
  fp_event F (CallPoseDetection video_path) ->
  (forall frame, fp_event F (CallPredict frame)) ->
  (forall folder, CONFIG !! "pose_data_folder" = Some (CfgStr folder) ->
     fp_path F (join folder (fst (splitext (basename video_path)) +:+ "_pose.json"))) ->
  pres (within F) id (pose_detection CONFIG json_dumps o video_path).
Proof.
  intros He Hp Hf. unfold pose_detection.
  pres_step; [pres_auto |].
  pres_step.
  - unfold pose_try. pres_auto. apply pose_loop_within; auto.
  - pres_auto.
  - apply pres_bind_config_path. intros folder E.
    pres_auto; pres_modify_step; apply within_set_fs_insert; auto.
Qed.

Lemma shutil_move_within o src dst :
  fp_event F (CallMove src dst) -> fp_path F src -> fp_path F dst ->
  pres (within F) id (shutil_move o src dst).
Proof.
  intros He Hs Hd. unfold shutil_move. pres_step; [pres_auto |].
  pres_step.
  - intros w. destruct (fs w !! src); reflexivity.
  - destruct (o_move o) as [fault |].
    + pres_step; [| pres_auto].
      destruct (mf_left fault) as [written |]; [| pres_auto].
      destruct (bool_decide (dst = src)); [pres_auto |].
      pres_modify_step. by apply within_set_fs_insert.
    + pres_modify_step.
      unfold within; simpl. repeat split; auto.
      * intros p Hp. rewrite lookup_insert_ne, lookup_delete_ne; auto; congruence.
      * exists []. split; [by rewrite app_nil_r | constructor].
Qed.

Lemma move_processed_file_within o video_path :
  (forall dst, fp_event F (CallMove video_path dst)) ->
  fp_path F video_path ->
  (forall folder, CONFIG !! "processed_folder" = Some (CfgStr folder) ->
     fp_path F (join folder (basename video_path))) ->
  pres (within F) id (move_processed_file CONFIG o video_path).
Proof.
  intros He Hs Hd. unfold move_processed_file.
  pres_step.
  - apply pres_bind_config_path. intros folder E.
    pres_auto. apply shutil_move_within; auto.
  - pres_auto.
  - pres_auto.
Qed.

Lemma on_connection_within fault : pres (within F) id (on_connection fault).
Proof.
  intros w. unfold on_connection.
  destruct (pg_connection w) as [closed |]; [| reflexivity].
  destruct (closed =? 0); [| reflexivity].
  apply pres_of_fault. typeclasses eauto.
Qed.

Lemma db_insert_within o db_table row_data :
  fp_event F (CallDbInsert db_table row_data) -> fp_pg F ->
  pres (within F) id (db_insert o db_table row_data).
Proof.
  intros He Hpg. unfold db_insert, cursor_execute, connection_commit, connection_rollback.
  pres_auto; try apply on_connection_within;
    pres_modify_step; auto using within_set_pg, within_set_pg_pending.
Qed.

Lemma open_read_within o path : pres (within F) id (open_read o path).
Proof.
  intros w. unfold open_read.
  destruct (fs w !! path); [destruct (o_open_read o) |]; reflexivity.
Qed.

Lemma redis_exists_within o key :
  fp_event F (CallRedisExists key) -> pres (within F) id (redis_exists o key).
Proof. intros He. unfold redis_exists. pres_auto. Qed.

Lemma redis_set_within o key val :
  fp_event F (CallRedisSet key) -> fp_key F key ->
  pres (within F) id (redis_set o key val).
Proof.
  intros He Hk. unfold redis_set. pres_auto.
  pres_modify_step. by apply within_set_redis_insert.
Qed.

End Footprints.

(** ** Signs of rounded quotients *)










(** ** Paths *)

Lemma app_cons x (a b : string) : String x a +:+ b = String x (a +:+ b).
Proof. reflexivity. Qed.

Lemma app_empty (b : string) : EmptyString +:+ b = b.
Proof. reflexivity. Qed.

Lemma app_snoc (a : string) c (b : string) :
  (a +:+ String c EmptyString) +:+ b = a +:+ String c b.
Proof.
  induction a as [| x a IH]; [done |]. by rewrite !app_cons, IH.
Qed.

Lemma length_app (a b : string) :
  String.length (a +:+ b) = (String.length a + String.length b)%nat.
Proof. induction a as [| c a IH]; simpl; [done | by rewrite IH]. Qed.

Lemma rfind_range c s : -1 <= rfind c s < Z.of_nat (String.length s).
Proof.
  induction s as [| a s IH]; simpl; [lia |].
  destruct (0 <=? rfind c s) eqn:E; [lia |].
  destruct (decide (a = c)); lia.
Qed.

(** The last occurrence in [a +:+ b] is the last one in [b], if any. *)
Lemma rfind_app_r c a b :
  0 <= rfind c b ->
  rfind c (a +:+ b) = Z.of_nat (String.length a) + rfind c b.
Proof.
  intros Hb. induction a as [| x a IH].
  - change (EmptyString +:+ b) with b. simpl. lia.
  - change (String x a +:+ b) with (String x (a +:+ b)).
    change (String.length (String x a)) with (S (String.length a)).
    cbn [rfind]. rewrite IH.
    destruct (0 <=? _) eqn:E; lia.
Qed.

Lemma rfind_cons_sep c b : rfind c b = -1 -> rfind c (String c b) = 0.
Proof.
  intros Hb. simpl. rewrite Hb. simpl. by destruct (decide (c = c)).
Qed.

Lemma rfind_take_none c n s : rfind c s = -1 -> rfind c (take n s) = -1.
Proof.
  revert n. induction s as [| a s IH]; intros [| n] H; simpl in *; try done.
  pose proof (rfind_range c s) as Hr.
  destruct (0 <=? rfind c s) eqn:E; [lia |].
  destruct (decide (a = c)); [lia |].
  rewrite IH by lia. simpl. by destruct (decide (a = c)).
Qed.

Lemma rfind_app_none c a b :
  rfind c a = -1 -> rfind c b = -1 -> rfind c (a +:+ b) = -1.
Proof.
  intros Ha Hb. induction a as [| x a IH]; simpl in *; [done |].
  pose proof (rfind_range c a) as Hr.
  destruct (0 <=? rfind c a) eqn:E; [lia |].
  destruct (decide (x = c)); [lia |].
  rewrite IH by lia. simpl. by destruct (decide (x = c)).
Qed.

Lemma drop_app_length (a b : string) : drop (String.length a) (a +:+ b) = b.
Proof. induction a as [| c a IH]; simpl; auto. Qed.

Lemma take_drop (n : nat) (s : string) : take n s +:+ drop n s = s.
Proof.
  revert n. induction s as [| c s IH]; intros [| n]; simpl; try done.
  by rewrite app_cons, IH.
Qed.

Lemma length_take (n : nat) (s : string) :
  (n <= String.length s)%nat -> String.length (take n s) = n.
Proof.
  revert n. induction s as [| c s IH]; intros [| n]; simpl; try lia.
  intros H. rewrite IH; lia.
Qed.

(** A base name holds no separator. *)
Lemma basename_no_sep p : rfind sep (basename p) = -1.
Proof.
  unfold basename. induction p as [| a p IH]; simpl; [done |].
  pose proof (rfind_range sep p) as Hr.
  destruct (0 <=? rfind sep p) eqn:E.
  - replace (Z.to_nat (rfind sep p + 1 + 1)) with (S (Z.to_nat (rfind sep p + 1)))
      by lia.
    exact IH.
  - destruct (decide (a = sep)) as [-> |]; simpl.
    + lia.
    + rewrite (proj2 (Z.leb_gt _ _)) by lia. by destruct (decide (a = sep)).
Qed.

Lemma basename_app_sep a b :
  rfind sep b = -1 -> basename (a +:+ String sep b) = b.
Proof.
  intros Hb. unfold basename.
  rewrite rfind_app_r by (rewrite rfind_cons_sep; [lia | done]).
  rewrite rfind_cons_sep by done.
  replace (Z.to_nat (Z.of_nat (String.length a) + 0 + 1))
    with (String.length (a +:+ String sep EmptyString)).
  - rewrite <- (app_snoc a sep b). apply drop_app_length.
  - rewrite length_app. simpl. lia.
Qed.

Lemma startswith_sep_rfind b : startswith b "/" = true -> 0 <= rfind sep b.
Proof.
  destruct b as [| c b]; simpl; [done |].
  destruct (decide ("/"%char = c)) as [<- |]; [| done]. intros _.
  pose proof (rfind_range sep b).
  destruct (0 <=? rfind sep b) eqn:E; [lia |].
  by destruct (decide ("/"%char = sep)).
Qed.

Lemma endswith_sep a : endswith a "/" = true -> exists a', a = a' +:+ "/".
Proof.
  unfold endswith. intros [_ H%bool_decide_eq_true]%andb_prop.
  exists (take (String.length a - String.length "/") a).
  rewrite <- (take_drop (String.length a - String.length "/") a) at 1.
  by rewrite H.
Qed.

(** [basename(join(a, b))] is [b] for a name without separator. *)
Lemma basename_join a b : rfind sep b = -1 -> basename (join a b) = b.
Proof.
  intros Hb. unfold join.
  destruct (startswith b "/") eqn:Es.
  { apply startswith_sep_rfind in Es. lia. }
  destruct (bool_decide (a = EmptyString)) eqn:Ea; simpl.
  { apply bool_decide_eq_true in Ea as ->. rewrite app_empty.
    unfold basename. by rewrite Hb. }
  destruct (endswith a "/") eqn:Ee.
  - apply endswith_sep in Ee as [a' ->].
    change "/" with (String sep EmptyString). rewrite app_snoc.
    by apply basename_app_sep.
  - change (a +:+ "/" +:+ b) with (a +:+ String sep b).
    by apply basename_app_sep.
Qed.

(** The root [splitext] gives is the name or what precedes its last dot. *)
Lemma splitext_root s :
  fst (splitext s) = s
  \/ (0 <= rfind extsep s /\ fst (splitext s) = take (Z.to_nat (rfind extsep s)) s).
Proof.
  unfold splitext.
  destruct (rfind sep s <? rfind extsep s) eqn:E; [| by left].
  destruct (has_non_dot _); [| by left].
  right. split; [| done]. pose proof (rfind_range sep s). lia.
Qed.

Lemma splitext_root_no_sep s : rfind sep s = -1 -> rfind sep (fst (splitext s)) = -1.
Proof.
  intros Hs. destruct (splitext_root s) as [-> | [_ ->]]; [done |].
  by apply rfind_take_none.
Qed.

(** A name is never its own root followed by ["_pose.json"]. *)
Lemma root_pose_ne s : fst (splitext s) +:+ "_pose.json" <> s.
Proof.
  intros H.
  destruct (splitext_root s) as [E | [Hd E]]; rewrite E in H.
  - apply (f_equal String.length) in H. rewrite length_app in H. simpl in H. lia.
  - pose proof (rfind_range extsep s) as Hr.
    assert (Hl : String.length (take (Z.to_nat (rfind extsep s)) s)
                 = Z.to_nat (rfind extsep s)) by (apply length_take; lia).
    assert (Hf : rfind extsep s
                 = Z.of_nat (String.length (take (Z.to_nat (rfind extsep s)) s)) + 5).
    { rewrite <- H at 1. rewrite rfind_app_r; [done |]. by vm_compute. }
    rewrite Hl in Hf. lia.
Qed.

(** The sidecar of a video is never the video itself. *)
Lemma pose_path_ne folder video_path :
  join folder (fst (splitext (basename video_path)) +:+ "_pose.json") <> video_path.
Proof.
  intros H. apply (f_equal basename) in H.
  rewrite basename_join in H.
  - by apply root_pose_ne in H.
  - apply rfind_app_none; [| by vm_compute].
    apply splitext_root_no_sep, basename_no_sep.
Qed.

(** ** The metadata probe *)

(** One case split of a run: on the answer of an oracle or on a test. *)
Ltac run_step :=
  match goal with
  | |- context [match ?x with Ok _ => _ | Raise _ => _ end] => destruct x eqn:?
  | |- context [match ?x with Some _ => _ | None => _ end] => destruct x eqn:?
  | |- context [match ?x with [] => _ | _ :: _ => _ end] => destruct x eqn:?
  | |- context [if ?x then _ else _] => destruct x eqn:?
  end.

Ltac unfold_probe :=
  unfold extract_metadata_try, get_video_codec, try_except, try_except_else, bind,
    of_result, of_fault, logging_info, logging_error, assign, modify, ret, raise, under.

Lemma extract_metadata_eq o video_path w :
  extract_metadata o video_path w =
  let s1 := snd (probe_statement o video_path
                   (new_fields (basename video_path),
                    add_event (CallExtractMetadata video_path) w)) in
  (Ok (fst s1), snd s1).
Proof.
  unfold extract_metadata, probe_statement, bind, emit, modify, with_local,
    finally_return, here. simpl.
  destruct (try_except_else _ _ _ _) as [r [m w1]]. reflexivity.
Qed.

Lemma probe_statement_populated o video_path filename w :
  populated filename (fst (snd (probe_statement o video_path (new_fields filename, w)))).
Proof.
  unfold probe_statement. unfold_probe.
  repeat (run_step; cbn [fst snd]); constructor.
Qed.


Lemma populated_video_filename filename m :
  populated filename m -> video_filename m = filename.
Proof. by destruct 1. Qed.

Lemma populated_untouched filename m :
  populated filename m -> corrupted m = None /\ pose_file_path m = "N/A".
Proof. by destruct 1. Qed.

(** [extract_metadata] always returns, and returns an object of the base
    name of the path. *)
Lemma extract_metadata_returns o video_path w :
  exists m w',
    extract_metadata o video_path w = (Ok m, w')
    /\ video_filename m = basename video_path
    /\ populated (basename video_path) m.
Proof.
  rewrite extract_metadata_eq. cbv zeta.
  eexists _, _. split; [reflexivity |].
  pose proof (probe_statement_populated o video_path (basename video_path)
                (add_event (CallExtractMetadata video_path) w)) as Hp.
  split; [by apply populated_video_filename | exact Hp].
Qed.





(** ** The result store *)

Lemma fields_eta (r : VideoProcessingResultFields) :
  mkFields (video_filename r) (duration_seconds r) (resolution r) (codec r)
           (frame_rate r) (corrupted r) (pose_file_path r) = r.
Proof. by destruct r. Qed.

(** Both branches of the statement leave the row of the record, stamped
    with the time of the statement. *)
Lemma upsert_eq now row_data rows :
  upsert now row_data rows = <[video_filename row_data := mkRow row_data now]> rows.
Proof.
  unfold upsert, processed_at_default. rewrite fields_eta.
  by destruct (rows !! video_filename row_data).
Qed.

Lemma db_insert_success o db_table row_data w :
  pg_connection w = Some 0 -> no_db_fault o ->
  exists w',
    db_insert o db_table row_data w = (Ok tt, w')
    /\ pg_rows w' = upsert (o_now o) row_data (rows_in_transaction w)
    /\ pg_pending w' = None
    /\ pg_connection w' = Some 0
    /\ fs w' = fs w /\ redis w' = redis w
    /\ trace w' = trace w ++ [CallDbInsert db_table row_data].
Proof.
  intros Hc (H1 & H2 & H3).
  unfold db_insert, cursor_execute, connection_commit, on_connection,
    try_except_else, bind, emit, logging_info, modify, of_fault, here.
  simpl. rewrite Hc. simpl. rewrite H1, H2. simpl. rewrite Hc. simpl.
  rewrite H3. eexists. split; [reflexivity |]. simpl. auto 10.
Qed.

(** An error in one of the three calls: logged, rolled back, and then the
    return of the rollback is the return of [db_insert]. *)
Lemma db_insert_failure o db_table row_data w e :
  pg_connection w = Some 0 -> pg_pending w = None -> db_fault o e ->
  exists w',
    db_insert o db_table row_data w
      = (match o_rollback o with None => Ok tt | Some e' => Raise e' end, w')
    /\ pg_rows w' = pg_rows w
    /\ (o_rollback o = None -> pg_pending w' = None)
    /\ log w' = log w ++
         [(INFO, "inserting " +:+ video_filename row_data);
          (ERROR, "Error inserting video processing result: " +:+ str_exn e)].
Proof.
  intros Hc Hp Hf.
  unfold db_insert, cursor_execute, connection_commit, connection_rollback,
    on_connection, try_except_else, bind, emit, logging_info, logging_error,
    modify, of_fault, here.
  simpl. rewrite Hc. simpl.
  destruct Hf as [H1 | [(H1 & H2) | (H1 & H2 & H3)]].
  - rewrite H1. simpl. rewrite Hc. simpl.
    destruct (o_rollback o); eexists; (split; [reflexivity |]); simpl;
      rewrite <- app_assoc; repeat split; done.
  - rewrite H1, H2. simpl. rewrite Hc. simpl.
    destruct (o_rollback o); eexists; (split; [reflexivity |]); simpl;
      rewrite <- app_assoc; repeat split; done.
  - rewrite H1, H2. simpl. rewrite Hc. simpl. rewrite H3. simpl.
    rewrite Hc. simpl.
    destruct (o_rollback o); eexists; (split; [reflexivity |]); simpl;
      rewrite <- app_assoc; repeat split; done.
Qed.

(** C6, as amended. Two successive upserts for one file name, neither
    failing: the table holds one row under that name, the row of the
    second record, stamped by the second statement with the server time of
    that statement; the second statement adds no row.  The stamp is later
    than the one the first statement left exactly when the server clock
    has advanced between the two statements: nothing in the statement
    compares it with the stamp it replaces. *)
Theorem upsert_overwrites o1 o2 db_table r1 r2 w :
  pg_connection w = Some 0 -> pg_pending w = None ->
  no_db_fault o1 -> no_db_fault o2 ->
  video_filename r1 = video_filename r2 ->
  let w1 := snd (db_insert o1 db_table r1 w) in
  let w2 := snd (db_insert o2 db_table r2 w1) in
  fst (db_insert o1 db_table r1 w) = Ok tt
  /\ fst (db_insert o2 db_table r2 w1) = Ok tt
  /\ pg_rows w1 !! video_filename r1 = Some (mkRow r1 (o_now o1))
  /\ pg_rows w2 !! video_filename r1 = Some (mkRow r2 (o_now o2))
  /\ dom (pg_rows w2) = dom (pg_rows w1)
  /\ size (pg_rows w2) = size (pg_rows w1)
  /\ (forall row1 row2,
        pg_rows w1 !! video_filename r1 = Some row1 ->
        pg_rows w2 !! video_filename r1 = Some row2 ->
        row_fields row2 = r2 /\ processed_at row2 = o_now o2
        /\ (processed_at row1 < processed_at row2 <-> o_now o1 < o_now o2)).
Proof.
  intros Hc Hp Hf1 Hf2 Hk w1 w2.
  destruct (db_insert_success o1 db_table r1 w Hc Hf1)
    as (w1' & E1 & Hr1 & Hp1 & Hc1 & _).
  assert (Hw1 : w1 = w1') by (subst w1; by rewrite E1). 
  destruct (db_insert_success o2 db_table r2 w1' Hc1 Hf2)
    as (w2' & E2 & Hr2 & Hp2 & Hc2 & _).
  assert (Hw2 : w2 = w2') by (subst w2; by rewrite Hw1, E2).
  rewrite E1. rewrite Hw1, E2, Hw2. cbn [fst].
  unfold rows_in_transaction in Hr1, Hr2. rewrite Hp in Hr1. rewrite Hp1 in Hr2.
  rewrite upsert_eq in Hr1, Hr2.
  assert (L1 : pg_rows w1' !! video_filename r1 = Some (mkRow r1 (o_now o1))).
  { rewrite Hr1. apply lookup_insert_eq. }
  assert (L2 : pg_rows w2' !! video_filename r1 = Some (mkRow r2 (o_now o2))).
  { rewrite Hr2, <- Hk. apply lookup_insert_eq. }
  assert (D : dom (pg_rows w2') = dom (pg_rows w1')).
  { rewrite Hr2, dom_insert_L, <- Hk.
    apply subseteq_union_1_L, singleton_subseteq_l, elem_of_dom. eauto. }
  split; [done |]. split; [done |]. split; [exact L1 |]. split; [exact L2 |].
  split; [exact D |]. split; [by rewrite <- !size_dom, D |].
  intros row1 row2 Hrow1 Hrow2. rewrite L1 in Hrow1. rewrite L2 in Hrow2.
  injection Hrow1 as <-. injection Hrow2 as <-. done.
Qed.

(** ** Further properties of the functions *)

(** *** [get_video_codec] *)

(** X1. [get_video_codec] never raises: it returns the [codec_name] of the
    first stream ffprobe reports, and the ["N/A"] sentinel when ffprobe or
    the parsing of its output fails, when the output has no ["streams"]
    entry or an empty one, and when the first stream has no
    ["codec_name"]; the last failure and the first are logged as errors. *)
Theorem get_video_codec_never_raises o video_path (w : World) :
  (exists codec_name, fst (get_video_codec here o video_path w) = Ok codec_name)
  /\ (forall codec_name streams,
        o_ffprobe o = Ok (Some (Some codec_name :: streams)) ->
        get_video_codec here o video_path w
        = (Ok codec_name, add_log INFO ("code: " +:+ codec_name) w))
  /\ (o_ffprobe o = Ok None \/ o_ffprobe o = Ok (Some []) ->
      get_video_codec here o video_path w = (Ok "N/A", add_log INFO "code: N/A" w))
  /\ (forall e, o_ffprobe o = Raise e ->
        get_video_codec here o video_path w
        = (Ok "N/A", add_log ERROR ("Failed to extract codec: " +:+ str_exn e) w))
  /\ (forall streams, o_ffprobe o = Ok (Some (None :: streams)) ->
        get_video_codec here o video_path w
        = (Ok "N/A",
           add_log ERROR
             ("Failed to extract codec: " +:+ str_exn (KeyError "codec_name")) w)).
Proof.
  unfold get_video_codec, try_except, try_except_else, bind, of_result,
    logging_info, logging_error, modify, ret, raise, here.
  split; [| split; [| split; [| split]]].
  - destruct (o_ffprobe o) as [[[| [c |] streams] |] | e]; simpl; eauto.
  - by intros c streams ->.
  - by intros [-> | ->].
  - by intros e ->.
  - by intros streams ->.
Qed.

(** *** [extract_metadata] *)

(** X2. A failure of the codec detection, or of [cap.release()], does not
    abort the probe: once frame count, frame rate, width and height have
    been read, the returned object carries the formatted frame rate, the
    duration and the resolution ["<width> x <height>"], with the codec of
    the first stream when ffprobe gives one and ["N/A"] when it fails. *)
Theorem codec_failure_keeps_metadata o video_path w cap x n fps xw width xh height :
  o_probe_capture o = Ok cap ->
  cap_frame_count cap = Ok x -> int_of_float x = Ok n ->
  cap_fps cap = Ok fps ->
  is_ok (truediv n fps) = true ->
  cap_frame_width cap = Ok xw -> int_of_float xw = Ok width ->
  cap_frame_height cap = Ok xh -> int_of_float xh = Ok height ->
  exists m,
    probed o video_path w = Ok m
    /\ frame_rate m = Str (format_2f fps)
    /\ duration_seconds m = spec_duration (Ok (n, fps))
    /\ resolution m = pretty width +:+ " x " +:+ pretty height
    /\ (forall e, o_ffprobe o = Raise e -> codec m = "N/A")
    /\ (forall c streams, o_ffprobe o = Ok (Some (Some c :: streams)) -> codec m = c)
    /\ corrupted m = None /\ pose_file_path m = "N/A".
Proof.
  intros Hcap Hx Hn Hfps Hdiv Hxw Hw Hxh Hh.
  unfold probed. rewrite extract_metadata_eq. cbv zeta. cbn [fst].
  eexists. split; [reflexivity |].
  unfold probe_statement, spec_duration. unfold_probe.
  rewrite Hcap. cbn [fst snd]. rewrite Hx. cbn [fst snd]. rewrite Hn.
  cbn [fst snd]. rewrite Hfps. cbn [fst snd].
  destruct (truediv n fps) as [d | e] eqn:Ed; [| discriminate].
  destruct (truthy fps); cbn [fst snd];
    rewrite ?Ed; cbn [fst snd]; rewrite Hxw; cbn [fst snd]; rewrite Hw;
    cbn [fst snd]; rewrite Hxh; cbn [fst snd]; rewrite Hh; cbn [fst snd];
    destruct (o_ffprobe o) as [[[| [c |] streams] |] | e]; cbn [fst snd];
    destruct (cap_release cap); cbn [fst snd];
    repeat split; try done; try (by intros ? [=]); try (by intros ? ? [= <-]).
Qed.

(** A run inside a footprint without paths, keys or table. *)
Lemma within_read_only (P : Event -> Prop) w w' :
  within {| fp_path := fun _ => False; fp_key := fun _ => False;
            fp_pg := False; fp_event := P |} w w' ->
  fs w' = fs w /\ redis w' = redis w /\ pg_rows w' = pg_rows w
  /\ pg_pending w' = pg_pending w /\ pg_connection w' = pg_connection w
  /\ exists added, trace w' = trace w ++ added /\ Forall P added.
Proof.
  intros (Hfs & Hk & _ & Hc & Hp & Ht).
  destruct (Hp (fun H => H)) as [Hr Hpend].
  split; [apply map_eq; intros p; apply Hfs; by intros [] |].
  split; [apply map_eq; intros p; apply Hk; by intros [] |].
  auto.
Qed.

(** X3. The probe and the corruption check only read: whatever the
    decoder and ffprobe do, [extract_metadata] and [is_corrupted] leave the
    file system, the Redis keys, the result table and the connection as
    they found them, and call neither the model nor the store. *)
Theorem probes_write_nothing o video_path w :
  let w1 := snd (extract_metadata o video_path w) in
  let w2 := snd (is_corrupted o video_path w) in
  (fs w1 = fs w /\ redis w1 = redis w /\ pg_rows w1 = pg_rows w
   /\ pg_pending w1 = pg_pending w /\ pg_connection w1 = pg_connection w
   /\ exists added, trace w1 = trace w ++ added
                    /\ Forall (fun e => e = CallExtractMetadata video_path) added)
  /\ (fs w2 = fs w /\ redis w2 = redis w /\ pg_rows w2 = pg_rows w
      /\ pg_pending w2 = pg_pending w /\ pg_connection w2 = pg_connection w
      /\ exists added, trace w2 = trace w ++ added
                       /\ Forall (fun e => e = CallIsCorrupted video_path) added).
Proof.
  split.
  - apply within_read_only.
    by apply (extract_metadata_within _ o video_path).
  - apply within_read_only.
    by apply (is_corrupted_within _ o video_path).
Qed.

(** *** [is_corrupted] *)

(** X4. The verdict of [is_corrupted], for a decoder object that could be
    created: a stream that is not opened is corrupted without being read;
    an opened stream is corrupted exactly when its first [read()] reports
    failure or gives no frame (so an empty stream is corrupted); and the
    function is not guarded: a frame count that cannot be converted to an
    integer raises out of it, although the count only feeds a log line. *)
Theorem is_corrupted_verdict o video_path w cap :
  o_check_capture o = Ok cap ->
  (cap_isOpened cap = false -> cap_release cap = None ->
   fst (is_corrupted o video_path w) = Ok true)
  /\ (forall x n success frame,
        cap_isOpened cap = true ->
        cap_frame_count cap = Ok x -> int_of_float x = Ok n ->
        first_read cap = Ok (success, frame) -> cap_release cap = None ->
        fst (is_corrupted o video_path w)
        = Ok (negb success || bool_decide (frame = None)))
  /\ (forall x n,
        cap_isOpened cap = true ->
        cap_frame_count cap = Ok x -> int_of_float x = Ok n ->
        cap_reads cap = [] -> cap_release cap = None ->
        fst (is_corrupted o video_path w) = Ok true)
  /\ (forall x e,
        cap_isOpened cap = true ->
        cap_frame_count cap = Ok x -> int_of_float x = Raise e ->
        fst (is_corrupted o video_path w) = Raise e).
Proof.
  intros Hcap.
  unfold is_corrupted, bind, emit, of_result, of_fault, logging_info, modify,
    ret, here.
  cbn [fst snd]. rewrite Hcap.
  split; [| split; [| split]].
  - intros -> ->. reflexivity.
  - intros x n success frame -> -> -> -> ->. cbn.
    by destruct (negb success || bool_decide (frame = None)).
  - intros x n -> -> ->. unfold first_read. intros -> ->. reflexivity.
  - intros x e -> -> ->. reflexivity.
Qed.

(** *** [PostgresWrapper] *)

(** X5. [db_connect] never raises: a failed [psycopg2.connect] is logged
    and leaves [self.connection] at [None]; afterwards [is_connected] is
    true exactly when the connection was made and is not closed.  The
    stores are not touched. *)
Theorem db_connect_never_raises boot w :
  pg_connection w = None ->
  let w' := snd (db_connect boot w) in
  fst (db_connect boot w) = Ok tt
  /\ (connection_live w' = true <-> b_connect boot = Ok 0)
  /\ (forall e, b_connect boot = Raise e ->
        pg_connection w' = None /\ exists msg, log w' = log w ++ [(ERROR, msg)])
  /\ fs w' = fs w /\ redis w' = redis w /\ pg_rows w' = pg_rows w.
Proof.
  intros Hc.
  unfold db_connect, try_except, try_except_else, bind, of_result, logging_info,
    logging_error, modify, ret, here, connection_live.
  destruct (b_connect boot) as [closed | e]; cbn.
  - repeat split; try done.
    + intros H%Z.eqb_eq. by subst.
    + by intros [= ->].
  - rewrite Hc. split; [done |]. split; [done |]. split; [| done].
    intros e' [= <-]. eauto.
Qed.

(** X6. A successful upsert writes the row of its own file name and no
    other: every other row of the table is as before, the set of names
    grows by at most that name, no transaction stays open, and neither the
    file system nor Redis is touched. *)
Theorem upsert_leaves_other_rows o db_table row_data w :
  pg_connection w = Some 0 -> pg_pending w = None -> no_db_fault o ->
  let w' := snd (db_insert o db_table row_data w) in
  pg_rows w' !! video_filename row_data = Some (mkRow row_data (o_now o))
  /\ (forall name, name <> video_filename row_data ->
        pg_rows w' !! name = pg_rows w !! name)
  /\ dom (pg_rows w') = {[video_filename row_data]} ∪ dom (pg_rows w)
  /\ pg_pending w' = None
  /\ fs w' = fs w /\ redis w' = redis w.
Proof.
  intros Hc Hp Hf.
  destruct (db_insert_success o db_table row_data w Hc Hf)
    as (w' & E & Hr & Hpend & _ & Hfs & Hredis & _).
  rewrite E. cbn [snd].
  unfold rows_in_transaction in Hr. rewrite Hp, upsert_eq in Hr. rewrite Hr.
  split; [apply lookup_insert_eq |].
  split; [intros name Hne; by apply lookup_insert_ne |].
  split; [apply dom_insert_L |]. auto.
Qed.

(** *** [init_config] *)

Lemma init_config_loop_run CONFIG keys response w :
  init_config_loop CONFIG keys response w
  = (Ok (response
         && bool_decide (filter (fun key => ~ is_Some (CONFIG !! key)) keys = [])),
     foldl (fun w' key => add_log ERROR (snd (missing_key_line key)) w') w
           (filter (fun key => ~ is_Some (CONFIG !! key)) keys)).
Proof.
  revert response w. induction keys as [| key rest IH]; intros response w.
  - cbn. by rewrite andb_true_r.
  - cbn [init_config_loop]. rewrite filter_cons.
    destruct (CONFIG !! key) as [v |] eqn:E.
    + rewrite decide_False by (intros H; apply H; eauto). apply IH.
    + rewrite decide_True by (by intros [v Hv]).
      unfold bind, logging_error, modify, here. cbn [fst snd].
      rewrite IH. cbn [foldl andb].
      rewrite (bool_decide_eq_false_2 (key :: _ = [])) by done.
      by rewrite andb_false_r.
Qed.

(** X7. [init_config] checks the presence of the seven expected keys and
    nothing else about them: it returns [True] exactly when none is
    missing, does not stop at the first missing key, and logs one error
    line per missing key, in the order of the list. *)
Theorem init_config_checks_presence CONFIG w :
  init_config CONFIG w
  = (Ok (bool_decide (missing_keys CONFIG = [])),
     foldl (fun w' key => add_log ERROR (snd (missing_key_line key)) w') w
           (missing_keys CONFIG))
  /\ (missing_keys CONFIG = []
      <-> Forall (fun key => is_Some (CONFIG !! key)) expected_config_keys)
  /\ log (snd (init_config CONFIG w))
     = log w ++ (missing_key_line <$> missing_keys CONFIG).
Proof.
  unfold init_config, missing_keys. rewrite init_config_loop_run. cbn [snd].
  split; [done |]. split.
  - generalize expected_config_keys. intros keys.
    induction keys as [| key rest IH]; [done |].
    rewrite filter_cons, Forall_cons.
    destruct (decide (~ is_Some (CONFIG !! key))) as [Hn | Hy].
    + split; [done | tauto].
    + rewrite IH.
      assert (is_Some (CONFIG !! key))
        by (destruct (CONFIG !! key); [eauto | exfalso; apply Hy; by intros [? ?]]).
      tauto.
  - generalize (filter (fun key => ~ is_Some (CONFIG !! key)) expected_config_keys).
    intros l. revert w. induction l as [| key rest IH]; intros w.
    + cbn. by rewrite app_nil_r.
    + cbn [foldl]. rewrite IH. cbn. by rewrite <- app_assoc.
Qed.

(** *** The extension filter *)

Lemma lower_no_upper s : has_upper (lower s) = false.
Proof.
  induction s as [| c s IH]; [done |]. cbn [lower has_upper]. rewrite IH.
  rewrite orb_false_r. unfold lower_ascii.
  destruct ((65 <=? nat_of_ascii c)%nat && (nat_of_ascii c <=? 90)%nat) eqn:E.
  - apply andb_prop in E as [H1%Nat.leb_le H2%Nat.leb_le].
    rewrite nat_ascii_embedding by lia.
    apply andb_false_intro2, Nat.leb_gt. lia.
  - exact E.
Qed.

Lemma has_upper_drop n s : has_upper (drop n s) = true -> has_upper s = true.
Proof.
  revert n. induction s as [| c s IH]; intros [| n]; cbn; try done.
  intros H. rewrite (IH n H). apply orb_true_r.
Qed.

(** X8. Only the file name is lowered before the extension test, not the
    configured extensions: an extension of config.json that contains a
    capital letter matches no file at all, so the formats with a capital
    letter can be struck from the tuple without changing which files are
    selected. *)
Theorem capital_extension_never_matches file formats :
  (forall suf, has_upper suf = true -> endswith (lower file) suf = false)
  /\ endswith_any (lower file) formats
     = endswith_any (lower file)
         (filter (fun suf => has_upper suf = false) formats).
Proof.
  assert (H : forall suf, has_upper suf = true -> endswith (lower file) suf = false).
  { intros suf Hs. unfold endswith.
    destruct (bool_decide _) eqn:E; [| apply andb_false_r].
    apply bool_decide_eq_true in E. rewrite <- E in Hs.
    apply has_upper_drop in Hs. by rewrite lower_no_upper in Hs. }
  split; [exact H |].
  unfold endswith_any. induction formats as [| suf rest IH]; [done |].
  rewrite filter_cons. cbn [existsb].
  destruct (decide (has_upper suf = false)) as [Hl | Hu].
  - cbn [existsb]. by rewrite IH.
  - rewrite H by (by destruct (has_upper suf)). by rewrite IH.
Qed.

(** ** The scan loop *)

Section Loop.

Variable CONFIG : gmap string cfg_value.
Variable md5_hexdigest : string -> string.
Variable json_dumps : list (Z * Keypoints) -> string.

Local Abbreviation process_new := (process_new CONFIG json_dumps).
Local Abbreviation process_try := (process_try CONFIG md5_hexdigest json_dumps).
Local Abbreviation process_file := (process_file CONFIG md5_hexdigest json_dumps).
Local Abbreviation pose_detection := (pose_detection CONFIG json_dumps).
Local Abbreviation persist := (persist CONFIG).
Local Abbreviation move_processed_file := (move_processed_file CONFIG).

(** *** Footprints of the blocks of the loop body *)

Lemma persist_within F o row_data :
  (forall db_table, fp_event F (CallDbInsert db_table row_data)) -> fp_pg F ->
  pres (within F) id (persist o row_data).
Proof.
  intros He Hpg. unfold persist, is_connected. pres_auto.
  - apply config_within.
  - by apply db_insert_within.
Qed.

Lemma process_new_within F o file full_path :
  (forall e, work_event e -> fp_event F e) -> fp_pg F ->
  (forall p, pose_path CONFIG full_path p -> fp_path F p) ->
  pres (within F) id (process_new o file full_path).
Proof.
  intros He Hpg Hp. unfold process_new. pres_auto.
  - apply extract_metadata_within. by apply He.
  - apply is_corrupted_within. by apply He.
  - apply pose_detection_within.
    + by apply He.
    + intros frame. by apply He.
    + intros folder E. apply Hp. by exists folder.
  - apply persist_within; [| done]. intros t. by apply He.
Qed.

Lemma process_try_within F o file full_path :
  (forall e, work_event e -> fp_event F e) ->
  (forall k, fp_event F (CallRedisExists k)) -> fp_pg F ->
  (forall p, pose_path CONFIG full_path p -> fp_path F p) ->
  pres (within F) id (process_try o file full_path).
Proof.
  intros He Hx Hpg Hp. unfold process_try. pres_auto.
  - apply open_read_within.
  - by apply redis_exists_within.
  - by apply process_new_within.
Qed.

Lemma attempt_within o file full_path :
  pres (within (attempt_footprint CONFIG full_path)) id
    (try_except_else (process_try o file full_path)
                     (process_except file) (process_else o file)).
Proof.
  pres_step.
  - apply process_try_within; simpl; try done.
    intros e He src dst. by destruct e.
  - unfold process_except. pres_auto.
  - unfold process_else. pres_auto. by apply redis_set_within.
Qed.

(** *** What the blocks compute *)

Lemma process_file_eq o file w inp :
  CONFIG !! "input_folder" = Some (CfgStr inp) ->
  process_file o file w
  = try_finally
      (try_except_else (process_try o file (join inp file))
                       (process_except file) (process_else o file))
      (move_processed_file o (join inp file)) w.
Proof.
  intros Hi. unfold process_file, bind, config_path, config, of_result.
  by rewrite Hi.
Qed.

(** [move_processed_file] returns whatever [shutil.move] does; the file
    moves when the move does not fail. *)
Lemma move_processed_file_run o src proc w :
  CONFIG !! "processed_folder" = Some (CfgStr proc) ->
  exists w',
    move_processed_file o src w = (Ok tt, w')
    /\ redis w' = redis w /\ pg_rows w' = pg_rows w
    /\ pg_pending w' = pg_pending w /\ pg_connection w' = pg_connection w
    /\ trace w' = trace w ++ [CallMove src (join proc (basename src))]
    /\ fs w' = moved o src (join proc (basename src)) (fs w).
Proof.
  intros Hp.
  unfold move_processed_file, shutil_move, try_except_else, bind, config_path,
    config, of_result, of_fault, emit, modify, logging_info, logging_error, ret,
    raise, here, moved.
  rewrite Hp. simpl.
  destruct (fs w !! src) as [data |]; simpl.
  - destruct (o_move o) as [[e [written |]] |]; simpl.
    + destruct (bool_decide (join proc (basename src) = src)); simpl;
        destruct e; simpl; eexists; (split; [reflexivity |]); simpl; auto 10.
    + destruct e; simpl; eexists; (split; [reflexivity |]); simpl; auto 10.
    + eexists; (split; [reflexivity |]); simpl; auto 10.
  - eexists; (split; [reflexivity |]); simpl; auto 10.
Qed.


Lemma move_processed_file_returns o src w :
  fst (move_processed_file o src w) = Ok tt.
Proof.
  unfold move_processed_file, shutil_move, try_except_else, bind, config_path,
    config, of_result, of_fault, emit, modify, logging_info, logging_error, ret,
    raise, here.
  destruct (CONFIG !! "processed_folder") as [[proc | n | l] |]; simpl; try done.
  destruct (fs w !! src) as [data |]; simpl; [| done].
  destruct (o_move o) as [[e [written |]] |]; simpl; [| by destruct e | done].
  destruct (bool_decide (join proc (basename src) = src)); simpl; by destruct e.
Qed.

Lemma connection_live_iff w : connection_live w = true <-> pg_connection w = Some 0.
Proof.
  unfold connection_live. destruct (pg_connection w) as [c |]; [| done].
  split; [intros ->%Z.eqb_eq | intros [= ->]]; done.
Qed.

Lemma persist_disconnected o row_data w :
  connection_live w = false -> persist o row_data w = (Ok tt, w).
Proof.
  intros H. unfold persist, is_connected, bind, gets. by rewrite H.
Qed.

Lemma persist_connected o row_data w db_table :
  connection_live w = true -> CONFIG !! "db_table_name" = Some db_table ->
  persist o row_data w = db_insert o db_table row_data w.
Proof.
  intros H Ht. unfold persist, is_connected, bind, gets, config, of_result.
  by rewrite H, Ht.
Qed.

(** The runs of the suite under [if should_process:]. *)
Lemma process_new_cases o file full_path w :
  exists m w1 w2,
    populated (basename full_path) m
    /\ within (probe_footprint full_path) w w1
    /\ within (probe_footprint full_path) w1 w2
    /\ ((exists e, fst (is_corrupted o full_path w1) = Raise e
                   /\ process_new o file full_path w = (Raise e, w2))
        \/ (fst (is_corrupted o full_path w1) = Ok true
            /\ process_new o file full_path w
               = persist o (set_corrupted true m)
                   (add_log INFO
                      (file +:+ " is corrupted. will not perform pose detection.") w2))
        \/ (fst (is_corrupted o full_path w1) = Ok false
            /\ exists w3,
                 within (pose_footprint CONFIG full_path) w2 w3
                 /\ ((exists e, pose_detection o full_path w2 = (Raise e, w3)
                                /\ process_new o file full_path w = (Raise e, w3))
                     \/ (exists p, pose_detection o full_path w2 = (Ok p, w3)
                                   /\ process_new o file full_path w
                                      = persist o
                                          (set_corrupted false (set_pose_file_path p m))
                                          w3)))).
Proof.
  destruct (extract_metadata_returns o full_path w) as (m & w1 & E1 & _ & Hm).
  pose proof (extract_metadata_within (probe_footprint full_path) o full_path
                (or_introl eq_refl) w) as H1.
  rewrite E1 in H1. unfold id in H1. simpl in H1.
  pose proof (is_corrupted_within (probe_footprint full_path) o full_path
                (or_intror eq_refl) w1) as H2.
  unfold id in H2.
  exists m, w1, (snd (is_corrupted o full_path w1)).
  split; [exact Hm |]. split; [exact H1 |]. split; [exact H2 |].
  unfold process_new, bind. rewrite E1.
  destruct (is_corrupted o full_path w1) as [[c | e] w2]; simpl.
  - destruct c; simpl.
    + right. left. split; [done |].
      unfold logging_info, modify, ret, here. reflexivity.
    + right. right. split; [done |].
      pose proof (pose_detection_within CONFIG json_dumps
                    (pose_footprint CONFIG full_path) o full_path
                    (or_introl eq_refl)
                    (fun frame => or_intror (ex_intro _ frame eq_refl))
                    (fun folder E => ex_intro _ folder (conj E eq_refl)) w2) as H3.
      unfold id in H3.
      exists (snd (pose_detection o full_path w2)). split; [exact H3 |].
      destruct (pose_detection o full_path w2) as [[p | e] w3]; simpl.
      * right. exists p. split; reflexivity.
      * left. exists e. split; reflexivity.
  - left. exists e. split; reflexivity.
Qed.

(** The [try] suite: the file is read and Redis asked before anything
    else; a marked fingerprint ends the suite there. *)
Lemma process_try_new o file full_path w data :
  fs w !! full_path = Some data -> o_open_read o = None ->
  o_redis_exists o = None -> redis w !! md5_hexdigest data = None ->
  process_try o file full_path w
  = bind (process_new o file full_path)
         (fun _ => ret (true, md5_hexdigest data))
         (entered file (md5_hexdigest data) w).
Proof.
  intros Hf Ho Hx Hr.
  unfold process_try, open_read, redis_exists, bind, logging_info, emit, modify,
    of_fault, gets, ret, here, entered.
  simpl. rewrite Hf, Ho, Hx. simpl. rewrite Hr. simpl. reflexivity.
Qed.

Lemma process_try_marked o file full_path w data :
  fs w !! full_path = Some data -> is_Some (redis w !! md5_hexdigest data) ->
  exists r w',
    process_try o file full_path w = (r, w')
    /\ fs w' = fs w /\ redis w' = redis w /\ pg_rows w' = pg_rows w
    /\ pg_pending w' = pg_pending w /\ pg_connection w' = pg_connection w
    /\ (r = Ok (false, md5_hexdigest data) \/ exists e, r = Raise e)
    /\ exists added, trace w' = trace w ++ added
                     /\ Forall (fun e => ~ work_event e) added.
Proof.
  intros Hf [v Hr].
  unfold process_try, open_read, redis_exists, bind, logging_info, emit, modify,
    of_fault, gets, ret, here.
  simpl. rewrite Hf.
  destruct (o_open_read o) as [e |]; simpl.
  { eexists _, _. split; [reflexivity |]. simpl. repeat split; eauto.
    exists []. split; [by rewrite app_nil_r | constructor]. }
  destruct (o_redis_exists o) as [e |]; simpl.
  { eexists _, _. split; [reflexivity |]. simpl. repeat split; eauto.
    all: try (eexists; split; [reflexivity |]; repeat constructor; auto). }
  rewrite Hr. simpl.
  eexists _, _. split; [reflexivity |]. simpl. repeat split; eauto.
  all: try (eexists; split; [reflexivity |]; repeat constructor; auto).
Qed.

(** *** Relocation *)

(** The file is untouched by everything that precedes the move. *)
Lemma attempt_keeps_file o file full_path w :
  fs (snd (try_except_else (process_try o file full_path)
                           (process_except file) (process_else o file) w))
     !! full_path
  = fs w !! full_path.
Proof.
  destruct (attempt_within o file full_path w) as (Hfs & _).
  apply Hfs. intros (folder & _ & E). symmetry in E.
  by apply pose_path_ne in E.
Qed.

(** The world in which the move is made, and the world it leaves. *)
Lemma process_file_move o file w inp proc data :
  CONFIG !! "input_folder" = Some (CfgStr inp) ->
  CONFIG !! "processed_folder" = Some (CfgStr proc) ->
  fs w !! join inp file = Some data ->
  exists w1,
    fs w1 !! join inp file = Some data
    /\ trace (snd (process_file o file w))
       = trace w1 ++ [CallMove (join inp file) (join proc (basename (join inp file)))]
    /\ fs (snd (process_file o file w))
       = moved o (join inp file) (join proc (basename (join inp file))) (fs w1).
Proof.
  intros Hi Hp Hf.
  rewrite (process_file_eq o file w inp Hi). unfold try_finally.
  pose proof (attempt_keeps_file o file (join inp file) w) as Hk.
  rewrite Hf in Hk.
  destruct (try_except_else _ _ _ w) as [r w1]. simpl in Hk.
  destruct (move_processed_file_run o (join inp file) proc w1 Hp)
    as (w2 & E & _ & _ & _ & _ & Ht & Hfs).
  rewrite E. simpl. exists w1. auto.
Qed.

(** A move that does not fail takes the file out of the input directory. *)
Lemma process_file_relocation o file w inp proc data :
  CONFIG !! "input_folder" = Some (CfgStr inp) ->
  CONFIG !! "processed_folder" = Some (CfgStr proc) ->
  fs w !! join inp file = Some data ->
  o_move o = None ->
  join inp file <> join proc (basename (join inp file)) ->
  fs (snd (process_file o file w)) !! join inp file = None
  /\ fs (snd (process_file o file w)) !! join proc (basename (join inp file))
     = Some data.
Proof.
  intros Hi Hp Hf Hm Hne.
  destruct (process_file_move o file w inp proc data Hi Hp Hf)
    as (w1 & Hsrc & _ & Hfs).
  unfold moved in Hfs. rewrite Hsrc, Hm in Hfs. rewrite Hfs. split.
  - rewrite lookup_insert_ne by done. apply lookup_delete_eq.
  - apply lookup_insert_eq.
Qed.


(** The loop body returns unless marking the fingerprint fails. *)
Lemma process_file_returns o file w inp :
  CONFIG !! "input_folder" = Some (CfgStr inp) ->
  o_redis_set o = None ->
  fst (process_file o file w) = Ok tt.
Proof.
  intros Hi Hs. rewrite (process_file_eq o file w inp Hi).
  unfold try_finally, try_except_else.
  destruct (process_try o file (join inp file) w) as [[[sp h] | e] w1].
  - unfold process_else, redis_set, bind, logging_info, emit, modify, of_fault,
      ret, here.
    rewrite Hs. destruct sp; simpl.
    + pose proof (move_processed_file_returns o (join inp file)) as Hm.
      match goal with |- context [move_processed_file o _ ?x] =>
        specialize (Hm x); destruct (move_processed_file o (join inp file) x) as [[[] | e] w2]
      end; simpl in *; congruence.
    + pose proof (move_processed_file_returns o (join inp file) w1) as Hm.
      destruct (move_processed_file o (join inp file) w1) as [[[] | e] w2];
        simpl in *; congruence.
  - unfold process_except, logging_error, modify, here.
    match goal with |- context [move_processed_file o _ ?x] =>
      pose proof (move_processed_file_returns o (join inp file) x) as Hm;
      destruct (move_processed_file o (join inp file) x) as [[[] | e'] w2]
    end; simpl in *; congruence.
Qed.

(** *** The dedup mark *)

(** C3. Where the code departs from the propagation policy of the design
    document: when the [try] suite of a new file has completed and [r.set]
    then raises, the exception is not caught by the loop body (the [else]
    suite is outside the handler); it leaves the [for] loop after the move
    of that file, and no later file of the listing is handled. *)
Theorem mark_failure_leaves_scan oracle formats file rest w inp h e :
  CONFIG !! "input_folder" = Some (CfgStr inp) ->
  endswith_any (lower file) formats = true ->
  fst (process_try (oracle file) file (join inp file) w) = Ok (true, h) ->
  o_redis_set (oracle file) = Some e ->
  scan_listing CONFIG md5_hexdigest json_dumps oracle formats (file :: rest) w
  = (Raise e, snd (process_file (oracle file) file w)).
Proof.
  intros Hi Hfmt Ht Hs. unfold scan_listing. simpl. rewrite Hfmt.
  unfold bind.
  assert (Hr : fst (process_file (oracle file) file w) = Raise e).
  { rewrite (process_file_eq (oracle file) file w inp Hi).
    unfold try_finally, try_except_else.
    destruct (process_try (oracle file) file (join inp file) w) as [r w1].
    simpl in Ht. subst r.
    unfold process_else, redis_set, bind, logging_info, emit, modify, of_fault, here.
    rewrite Hs. simpl.
    match goal with |- context [move_processed_file (oracle file) _ ?x] =>
      pose proof (move_processed_file_returns (oracle file) (join inp file) x) as Hm;
      destruct (move_processed_file (oracle file) (join inp file) x) as [[[] | e'] w2]
    end; simpl in *; congruence. }
  destruct (process_file (oracle file) file w) as [r w']. simpl in *. by subst r.
Qed.

(** *** Sidecar *)

(** C9. Where the code departs from the contract of the pose adapter:
    once the frames are decoded and inferred, a failure to open or to write
    the sidecar (the [else] suite, outside the handler) is raised to the
    caller of [pose_detection]; no sentinel is returned. *)
Theorem sidecar_write_error_propagates o video_path w folder pose_data e :
  CONFIG !! "pose_data_folder" = Some (CfgStr folder) ->
  fst (pose_try o video_path (add_event (CallPoseDetection video_path) w))
    = Ok pose_data ->
  o_open_write o = Some e \/ (o_open_write o = None /\ o_json_dump o = Some e) ->
  fst (pose_detection o video_path w) = Raise e.
Proof.
  intros Hc Ht Hw.
  unfold pose_detection, try_except_else, bind, emit, modify, here. simpl.
  destruct (pose_try o video_path _) as [r w1]. simpl in Ht. subst r.
  unfold config_path, config, of_result, bind, of_fault, modify. rewrite Hc.
  destruct Hw as [-> | [-> ->]]; reflexivity.
Qed.

(** *** Persistence errors *)

(** C5, as amended. An upsert on a live connection that meets an error in
    [cursor()], [execute] or [commit] logs it and rolls back: the committed
    rows are unchanged.  When the rollback returns, [db_insert] returns as
    it does after a success, so the caller is not told; only an exception
    of the rollback itself reaches the caller.  Either way the loop body
    that called it returns, so the process goes on. *)
Theorem upsert_error_rolled_back_and_logged o db_table row_data w e :
  pg_connection w = Some 0 -> pg_pending w = None -> db_fault o e ->
  let r := fst (db_insert o db_table row_data w) in
  let w' := snd (db_insert o db_table row_data w) in
  pg_rows w' = pg_rows w
  /\ log w' = log w ++
       [(INFO, "inserting " +:+ video_filename row_data);
        (ERROR, "Error inserting video processing result: " +:+ str_exn e)]
  /\ (o_rollback o = None -> r = Ok tt /\ pg_pending w' = None)
  /\ (forall e', o_rollback o = Some e' -> r = Raise e')
  /\ (forall file w0 inp,
        CONFIG !! "input_folder" = Some (CfgStr inp) -> o_redis_set o = None ->
        fst (process_file o file w0) = Ok tt).
Proof.
  intros Hc Hp Hf r w'. subst r w'.
  destruct (db_insert_failure o db_table row_data w e Hc Hp Hf)
    as (w1 & E & Hr & Hpend & Hl).
  rewrite E. simpl. split; [exact Hr |]. split; [exact Hl |].
  split; [| split].
  - intros Hn. rewrite Hn. auto.
  - intros e' Hn. by rewrite Hn.
  - intros file w0 inp Hi Hs. by eapply process_file_returns.
Qed.

(** *** Runs of the pipeline, by the state of the connection *)

Lemma within_pg F w w' :
  within F w w' -> ~ fp_pg F ->
  pg_rows w' = pg_rows w /\ pg_pending w' = pg_pending w
  /\ pg_connection w' = pg_connection w.
Proof.
  intros (_ & _ & _ & Hc & Hp & _) Hn. destruct (Hp Hn) as [-> ->]. auto.
Qed.

Lemma within_quiet F w w' :
  within F w w' -> ~ fp_pg F -> (forall k, ~ fp_key F k) ->
  pg_rows w' = pg_rows w /\ pg_pending w' = pg_pending w
  /\ pg_connection w' = pg_connection w /\ redis w' = redis w.
Proof.
  intros H Hn Hkeys. destruct (within_pg F w w' H Hn) as (-> & -> & ->).
  repeat split; auto.
  destruct H as (_ & Hk & _). apply map_eq. intros k. apply Hk, Hkeys.
Qed.

Lemma probe_in_analysis full_path w w' :
  within (probe_footprint full_path) w w' ->
  within (analysis_footprint CONFIG full_path) w w'.
Proof.
  apply within_weaken; simpl; try done.
  intros e [-> | ->]; split; done.
Qed.

Lemma pose_in_analysis full_path w w' :
  within (pose_footprint CONFIG full_path) w w' ->
  within (analysis_footprint CONFIG full_path) w w'.
Proof.
  apply within_weaken; simpl; try done.
  intros e [-> | [frame ->]]; split; done.
Qed.

(** Up to the persistence step the pipeline only probes, checks and
    extracts; it then hands one record to [persist], or has raised. *)
Lemma process_new_analysis o file full_path w :
  exists m wx,
    populated (basename full_path) m
    /\ within (analysis_footprint CONFIG full_path) w wx
    /\ ((exists e, process_new o file full_path w = (Raise e, wx))
        \/ (exists row_data,
              record_of o full_path m row_data
              /\ process_new o file full_path w = persist o row_data wx)).
Proof.
  destruct (process_new_cases o file full_path w)
    as (m & w1 & w2 & Hm & H1 & H2 & Hc).
  apply probe_in_analysis in H1, H2.
  assert (H12 : within (analysis_footprint CONFIG full_path) w w2)
    by (etransitivity; eauto).
  destruct Hc as [(e & _ & E) | [(Hv & E) | (Hv & w3 & H3 & Hc)]].
  - exists m, w2. split; [done |]. split; [done |]. left. eauto.
  - exists m, (add_log INFO
                 (file +:+ " is corrupted. will not perform pose detection.") w2).
    split; [done |]. split.
    + etransitivity; [exact H12 | apply within_add_log].
    + right. exists (set_corrupted true m). split; [| done]. left. eauto.
  - apply pose_in_analysis in H3.
    exists m, w3. split; [done |]. split; [etransitivity; eauto |].
    destruct Hc as [(e & _ & E) | (p & _ & E)].
    + left. eauto.
    + right. exists (set_corrupted false (set_pose_file_path p m)).
      split; [| done]. right. eauto.
Qed.

Lemma record_of_filename o full_path m row_data :
  populated (basename full_path) m -> record_of o full_path m row_data ->
  video_filename row_data = basename full_path.
Proof.
  intros Hm [[-> _] | (p & w1 & -> & _)]; simpl;
    by apply populated_video_filename.
Qed.

(** With the connection down nothing is handed to the store. *)
Lemma process_new_disconnected o file full_path w :
  connection_live w = false ->
  within (analysis_footprint CONFIG full_path) w
         (snd (process_new o file full_path w)).
Proof.
  intros Hl.
  destruct (process_new_analysis o file full_path w)
    as (m & wx & _ & Hx & [(e & E) | (row_data & _ & E)]); rewrite E; simpl.
  - exact Hx.
  - rewrite persist_disconnected; [exact Hx |].
    destruct Hx as (_ & _ & _ & Hc & _). unfold connection_live in *.
    by rewrite Hc.
Qed.

(** With a live connection and no failure of the upsert, the pipeline
    either raises before persistence and leaves the table as it was, or
    returns and has committed one row under the base name of the file. *)
Lemma process_new_connected o file full_path w db_table :
  pg_connection w = Some 0 -> pg_pending w = None ->
  CONFIG !! "db_table_name" = Some db_table -> no_db_fault o ->
  exists m,
    populated (basename full_path) m
    /\ redis (snd (process_new o file full_path w)) = redis w
    /\ (forall p, ~ pose_path CONFIG full_path p ->
          fs (snd (process_new o file full_path w)) !! p = fs w !! p)
    /\ ((exists e, fst (process_new o file full_path w) = Raise e
                   /\ pg_rows (snd (process_new o file full_path w)) = pg_rows w)
        \/ (fst (process_new o file full_path w) = Ok tt
            /\ exists row_data,
                 record_of o full_path m row_data
                 /\ pg_rows (snd (process_new o file full_path w))
                    = <[basename full_path := mkRow row_data (o_now o)]> (pg_rows w))).
Proof.
  intros Hc Hp Ht Hf.
  destruct (process_new_analysis o file full_path w)
    as (m & wx & Hm & Hx & Hcase).
  pose proof (within_quiet _ _ _ Hx (fun H => H) (fun _ H => H))
    as (Hrows & Hpend & Hconn & Hredis).
  destruct Hx as (Hfs & _).
  exists m. split; [exact Hm |].
  destruct Hcase as [(e & E) | (row_data & Hrow & E)]; rewrite E.
  - simpl. split; [exact Hredis |]. split; [exact Hfs |]. left. eauto.
  - rewrite (persist_connected o row_data wx db_table)
      by (try apply connection_live_iff; congruence).
    destruct (db_insert_success o db_table row_data wx) as
      (w' & E' & Hr' & _ & _ & Hfs' & Hredis' & _); [congruence | done |].
    rewrite E'. simpl. split; [congruence |]. split.
    + intros p Hn. rewrite Hfs'. by apply Hfs.
    + right. split; [done |]. exists row_data. split; [done |].
      rewrite Hr', upsert_eq. unfold rows_in_transaction.
      rewrite Hpend, Hp, Hrows.
      by rewrite (record_of_filename o full_path m row_data).
Qed.

(** *** After the [try] suite *)

Lemma tail_else_within o file full_path a :
  pres (within tail_footprint) id
    (try_finally (process_else o file a) (move_processed_file o full_path)).
Proof.
  pres_step.
  - unfold process_else. pres_auto. apply redis_set_within; simpl; auto.
  - apply move_processed_file_within; simpl; auto.
Qed.

Lemma tail_except_within o file full_path e :
  pres (within tail_footprint) id
    (try_finally (process_except file e) (move_processed_file o full_path)).
Proof.
  pres_step.
  - unfold process_except. pres_auto.
  - apply move_processed_file_within; simpl; auto.
Qed.

(** The loop body is its [try] suite followed by a tail that does no work
    on the video and does not write the table. *)
Lemma process_file_tail o file w inp :
  CONFIG !! "input_folder" = Some (CfgStr inp) ->
  within tail_footprint
    (snd (process_try o file (join inp file) w))
    (snd (process_file o file w)).
Proof.
  intros Hi. rewrite (process_file_eq o file w inp Hi).
  unfold try_finally at 1, try_except_else.
  destruct (process_try o file (join inp file) w) as [r w1]. simpl.
  destruct r as [a | e].
  - pose proof (tail_else_within o file (join inp file) a w1) as Ht.
    unfold id, try_finally in Ht.
    destruct (process_else o file a w1) as [r2 w2]. exact Ht.
  - pose proof (tail_except_within o file (join inp file) e w1) as Ht.
    unfold id, try_finally in Ht.
    destruct (process_except file e w1) as [r2 w2]. exact Ht.
Qed.

(** A completed [try] suite of a new file, a mark that does not fail:
    the fingerprint is set and then the move is made. *)
Lemma process_file_marks o file w inp proc h :
  CONFIG !! "input_folder" = Some (CfgStr inp) ->
  CONFIG !! "processed_folder" = Some (CfgStr proc) ->
  fst (process_try o file (join inp file) w) = Ok (true, h) ->
  o_redis_set o = None ->
  let w1 := snd (process_try o file (join inp file) w) in
  let w' := snd (process_file o file w) in
  fst (process_file o file w) = Ok tt
  /\ redis w' = <[h := "processed"]> (redis w1)
  /\ trace w' = trace w1
       ++ [CallRedisSet h; CallMove (join inp file) (join proc (basename (join inp file)))]
  /\ fs w' = moved o (join inp file) (join proc (basename (join inp file))) (fs w1).
Proof.
  intros Hi Hp Ht Hs w1 w'. subst w1 w'.
  rewrite (process_file_eq o file w inp Hi).
  unfold try_finally, try_except_else.
  destruct (process_try o file (join inp file) w) as [r w1]. simpl in *. subst r.
  unfold process_else, redis_set, bind, logging_info, emit, modify, of_fault, here.
  rewrite Hs. simpl.
  match goal with |- context [move_processed_file o _ ?x] =>
    destruct (move_processed_file_run o (join inp file) proc x Hp)
      as (w2 & E & Hr & _ & _ & _ & Htr & Hfs)
  end.
  rewrite E. simpl in *. rewrite Hr, Htr, Hfs.
  split; [done |]. split; [done |]. split; [by rewrite <- app_assoc | done].
Qed.

(** A [try] suite that raised: nothing is marked. *)
Lemma process_file_unmarked o file w inp e :
  CONFIG !! "input_folder" = Some (CfgStr inp) ->
  fst (process_try o file (join inp file) w) = Raise e ->
  redis (snd (process_file o file w))
  = redis (snd (process_try o file (join inp file) w)).
Proof.
  intros Hi Ht. rewrite (process_file_eq o file w inp Hi).
  unfold try_finally, try_except_else.
  destruct (process_try o file (join inp file) w) as [r w1]. simpl in *. subst r.
  unfold process_except, logging_error, modify, here.
  match goal with |- context [move_processed_file o _ ?x] =>
    pose proof (move_processed_file_within CONFIG
                  {| fp_path := fun _ => True; fp_key := fun _ => False;
                     fp_pg := False; fp_event := fun _ => True |}
                  o (join inp file) (fun _ => I) I (fun _ _ => I) x) as Hm;
    destruct (move_processed_file o (join inp file) x) as [r2 w2]
  end.
  unfold id in Hm. simpl in Hm.
  apply within_quiet in Hm as (_ & _ & _ & Hr); simpl; auto.
  by destruct r2.
Qed.

(** *** The [try] suite, by what it meets *)

Lemma process_try_within_new F o file full_path :
  (forall k, fp_event F (CallRedisExists k)) ->
  pres (within F) id (process_new o file full_path) ->
  pres (within F) id (process_try o file full_path).
Proof.
  intros Hx Hn. unfold process_try. pres_auto.
  - apply open_read_within.
  - by apply redis_exists_within.
Qed.

Lemma within_entered F file h w :
  fp_event F (CallRedisExists h) -> within F w (entered file h w).
Proof.
  intros He. unfold entered.
  etransitivity; [apply within_add_log | by apply within_add_event].
Qed.

(** The [try] suite of an unmarked file raises before the pipeline and
    changes no store, or runs the pipeline. *)
Lemma process_try_unmarked o file full_path w data :
  fs w !! full_path = Some data -> redis w !! md5_hexdigest data = None ->
  (exists e w1,
     process_try o file full_path w = (Raise e, w1)
     /\ redis w1 = redis w /\ pg_rows w1 = pg_rows w)
  \/ process_try o file full_path w
     = bind (process_new o file full_path)
            (fun _ => ret (true, md5_hexdigest data))
            (entered file (md5_hexdigest data) w).
Proof.
  intros Hf Hr.
  destruct (o_open_read o) as [e |] eqn:Ho.
  { left. unfold process_try, open_read, bind, logging_info, modify, here.
    simpl. rewrite Hf, Ho. eauto. }
  destruct (o_redis_exists o) as [e |] eqn:Hx.
  { left.
    unfold process_try, open_read, redis_exists, bind, logging_info, emit, modify,
      of_fault, here.
    simpl. rewrite Hf, Ho, Hx. simpl. eauto. }
  right. by apply process_try_new.
Qed.

Lemma bind_ret_run {S A B} (c : M S A) (b : B) (s : S) :
  bind c (fun _ => ret b) s
  = (match fst (c s) with Ok _ => Ok b | Raise e => Raise e end, snd (c s)).
Proof. unfold bind, ret. by destruct (c s) as [[a | e] s1]. Qed.

(** *** Files whose fingerprint is marked *)

(** A file whose bytes carry a marked fingerprint is moved and nothing
    else: no probe, no check, no inference, no upsert. *)
Lemma marked_not_reprocessed o file w inp data :
  CONFIG !! "input_folder" = Some (CfgStr inp) ->
  fs w !! join inp file = Some data ->
  is_Some (redis w !! md5_hexdigest data) ->
  within tail_footprint w (snd (process_file o file w)).
Proof.
  intros Hi Hf Hm.
  destruct (process_try_marked o file (join inp file) w data Hf Hm)
    as (r & w1 & E & Hfs & Hr & Hrows & Hpend & Hconn & _ & added & Ht & Ha).
  pose proof (process_file_tail o file w inp Hi) as Htail.
  rewrite E in Htail. simpl in Htail.
  etransitivity; [| exact Htail].
  unfold within. rewrite Hfs, Hr, Hrows, Hpend, Hconn. repeat split; auto.
  exists added. auto.
Qed.

(** C4. With the connection down and no exception in the [try] suite of
    a new file, the loop body makes no upsert and leaves the table as it
    was, yet marks the fingerprint and moves the file; from then on a file
    with the same bytes is only moved, whatever its name and whenever it
    arrives. *)
Theorem offline_marks_without_record o file w inp proc data :
  CONFIG !! "input_folder" = Some (CfgStr inp) ->
  CONFIG !! "processed_folder" = Some (CfgStr proc) ->
  join inp file <> join proc (basename (join inp file)) ->
  fs w !! join inp file = Some data ->
  redis w !! md5_hexdigest data = None ->
  connection_live w = false ->
  is_ok (fst (process_try o file (join inp file) w)) = true ->
  o_redis_set o = None -> o_move o = None ->
  let w' := snd (process_file o file w) in
  fst (process_file o file w) = Ok tt
  /\ (exists added,
        trace w' = trace w ++ added
        /\ Forall (fun e => forall db_table row_data,
                     e <> CallDbInsert db_table row_data) added)
  /\ pg_rows w' = pg_rows w /\ pg_pending w' = pg_pending w
  /\ redis w' !! md5_hexdigest data = Some "processed"
  /\ fs w' !! join inp file = None
  /\ fs w' !! join proc (basename (join inp file)) = Some data
  /\ (forall o2 file2 w2,
        fs w2 !! join inp file2 = Some data ->
        is_Some (redis w2 !! md5_hexdigest data) ->
        exists added,
          trace (snd (process_file o2 file2 w2)) = trace w2 ++ added
          /\ Forall (fun e => ~ work_event e) added).
Proof.
  intros Hi Hp Hne Hf Hr Hl Hok Hs Hm w'. subst w'.
  (* the [try] suite ran the pipeline, which returned *)
  assert (Et : process_try o file (join inp file) w
               = (Ok (true, md5_hexdigest data),
                  snd (process_new o file (join inp file)
                         (entered file (md5_hexdigest data) w)))).
  { destruct (process_try_unmarked o file (join inp file) w data Hf Hr)
      as [(e & w1 & E & _) | E].
    - rewrite E in Hok. discriminate.
    - rewrite E, bind_ret_run in *. simpl in Hok.
      by destruct (fst (process_new o file (join inp file)
                          (entered file (md5_hexdigest data) w))). }
  (* which wrote nothing but the sidecar *)
  pose proof (process_new_disconnected o file (join inp file)
                (entered file (md5_hexdigest data) w) Hl) as Hx.
  (* then the mark and the move *)
  destruct (process_file_marks o file w inp proc (md5_hexdigest data) Hi Hp)
    as (Hres & Hmark & Htr' & Hfs'); [by rewrite Et | done |].
  pose proof (process_file_tail o file w inp Hi) as Htail.
  apply within_pg in Htail as (Hrows' & Hpend' & _); [| exact (fun H => H)].
  rewrite Et in Hmark, Htr', Hfs', Hrows', Hpend'. simpl in *.
  destruct (process_new o file (join inp file)
              (entered file (md5_hexdigest data) w)) as [rx wx].
  simpl in *.
  pose proof (within_quiet _ _ _ Hx (fun H => H) (fun _ H => H))
    as (Hrows & Hpend & _ & Hredis).
  destruct Hx as (Hfs & _ & _ & _ & _ & added & Htr & Ha).
  assert (Hsrc : fs wx !! join inp file = Some data).
  { rewrite Hfs; [exact Hf |].
    intros (folder & _ & E). symmetry in E. by apply pose_path_ne in E. }
  unfold moved in Hfs'. rewrite Hsrc, Hm in Hfs'.
  split; [exact Hres |]. split.
  { eexists. rewrite Htr', Htr. unfold entered. simpl.
    rewrite <- !app_assoc. split; [reflexivity |].
    constructor; [done |]. apply Forall_app. split.
    - eapply Forall_impl; [exact Ha |]. by intros e [_ He].
    - repeat constructor; done. }
  split; [by rewrite Hrows', Hrows |]. split; [by rewrite Hpend', Hpend |].
  split; [rewrite Hmark; apply lookup_insert_eq |].
  split; [rewrite Hfs', lookup_insert_ne by done; apply lookup_delete_eq |].
  split; [rewrite Hfs'; apply lookup_insert_eq |].
  intros o2 file2 w2 Hf2 Hm2.
  by destruct (marked_not_reprocessed o2 file2 w2 inp data Hi Hf2 Hm2)
    as (_ & _ & _ & _ & _ & Ht).
Qed.

(** *** Corrupted files *)

Lemma tail_in_corrupted w w' :
  within tail_footprint w w' -> within corrupted_footprint w w'.
Proof.
  apply within_weaken; simpl; try done.
  intros e He. destruct e; simpl in *; try done; by destruct He.
Qed.

Lemma probe_in_corrupted full_path w w' :
  within (probe_footprint full_path) w w' -> within corrupted_footprint w w'.
Proof.
  apply within_weaken; simpl; try done. by intros e [-> | ->].
Qed.

(** The pipeline of a file the check classifies as corrupted: the probe,
    the check, and the upsert of a record marked corrupted. *)
Lemma process_new_corrupted o file full_path w :
  (forall w0, fst (is_corrupted o full_path w0) = Ok true) ->
  exists m w2,
    populated (basename full_path) m
    /\ within (probe_footprint full_path) w w2
    /\ process_new o file full_path w
       = persist o (set_corrupted true m)
           (add_log INFO
              (file +:+ " is corrupted. will not perform pose detection.") w2).
Proof.
  intros Hv.
  destruct (process_new_cases o file full_path w)
    as (m' & w1' & w2' & Hm & H1 & H2 & Hc).
  destruct Hc as [(e & Hr & _) | [(_ & E) | (Hr & _)]];
    try (rewrite Hv in Hr; discriminate).
  exists m', w2'. split; [done |]. split; [etransitivity; eauto | done].
Qed.

Lemma process_new_corrupted_within o file full_path :
  (forall w0, fst (is_corrupted o full_path w0) = Ok true) ->
  pres (within corrupted_footprint) id (process_new o file full_path).
Proof.
  intros Hv w. unfold id.
  destruct (process_new_corrupted o file full_path w Hv)
    as (m & w2 & Hm & H2 & E).
  rewrite E. apply probe_in_corrupted in H2.
  etransitivity; [exact H2 |].
  etransitivity; [apply within_add_log |].
  apply (persist_within corrupted_footprint); simpl; [| done].
  intros _. by apply populated_untouched in Hm as [_ ->].
Qed.

(** C7. For a file the corruption check classifies as corrupted, the loop
    body makes no call to [pose_detection] and none to the model, and the
    only record it hands to the store has [corrupted = True] and the
    ["N/A"] sentinel as [pose_file_path]; when the file is new, the
    connection live and the upsert does not fail, that record is the row
    committed under the name of the file. *)
Theorem corrupted_short_circuit o file w inp :
  CONFIG !! "input_folder" = Some (CfgStr inp) ->
  (forall w0, fst (is_corrupted o (join inp file) w0) = Ok true) ->
  let w' := snd (process_file o file w) in
  (exists added,
     trace w' = trace w ++ added /\ Forall corrupted_event added)
  /\ (forall data db_table,
        fs w !! join inp file = Some data ->
        o_open_read o = None -> o_redis_exists o = None ->
        redis w !! md5_hexdigest data = None ->
        pg_connection w = Some 0 -> pg_pending w = None ->
        CONFIG !! "db_table_name" = Some db_table -> no_db_fault o ->
        exists row_data,
          pg_rows w' !! basename (join inp file) = Some (mkRow row_data (o_now o))
          /\ video_filename row_data = basename (join inp file)
          /\ corrupted row_data = Some true
          /\ pose_file_path row_data = "N/A").
Proof.
  intros Hi Hv w'. subst w'.
  pose proof (process_file_tail o file w inp Hi) as Htail.
  split.
  - apply tail_in_corrupted in Htail.
    pose proof (process_try_within_new corrupted_footprint o file (join inp file)
                  (fun _ => I)
                  (process_new_corrupted_within o file (join inp file) Hv) w) as Ht.
    unfold id in Ht.
    assert (H : within corrupted_footprint w (snd (process_file o file w)))
      by (etransitivity; eauto).
    by destruct H as (_ & _ & _ & _ & _ & H).
  - intros data db_table Hf Ho Hx Hr Hc Hp Htb Hdb.
    apply within_pg in Htail as (Hrows & _); [| exact (fun H => H)].
    rewrite Hrows.
    rewrite (process_try_new o file (join inp file) w data Hf Ho Hx Hr),
      bind_ret_run.
    simpl.
    destruct (process_new_corrupted o file (join inp file)
                (entered file (md5_hexdigest data) w) Hv)
      as (m & w2 & Hm & H2 & E).
    rewrite E.
    apply within_quiet in H2 as (Hrows2 & Hpend2 & Hconn2 & _);
      [| exact (fun H => H) | exact (fun _ H => H)].
    rewrite (persist_connected o _ _ db_table);
      [| apply connection_live_iff; simpl; by rewrite Hconn2 | done].
    destruct (db_insert_success o db_table (set_corrupted true m)
                (add_log INFO
                   (file +:+ " is corrupted. will not perform pose detection.") w2))
      as (w3 & E3 & Hr3 & _); [simpl; by rewrite Hconn2 | done |].
    rewrite E3. simpl.
    exists (set_corrupted true m).
    rewrite Hr3, upsert_eq. simpl.
    rewrite (populated_video_filename _ _ Hm).
    split; [apply lookup_insert_eq |]. split; [done |]. split; [done |].
    by apply populated_untouched in Hm as [_ ->].
Qed.

(** *** The fingerprint invariant *)

(** C1, as amended. For a file whose fingerprint is not marked and whose
    name has no row yet, handled with a live connection, when neither the
    upsert nor the mark nor the move fails: the fingerprint is marked
    afterwards if and only if a row for the file has been committed and
    the file has been moved from the input to the processed directory. *)
Theorem marked_iff_recorded o file w inp proc data db_table :
  CONFIG !! "input_folder" = Some (CfgStr inp) ->
  CONFIG !! "processed_folder" = Some (CfgStr proc) ->
  CONFIG !! "db_table_name" = Some db_table ->
  join inp file <> join proc (basename (join inp file)) ->
  fs w !! join inp file = Some data ->
  redis w !! md5_hexdigest data = None ->
  pg_rows w !! basename (join inp file) = None ->
  pg_connection w = Some 0 -> pg_pending w = None ->
  no_db_fault o -> o_redis_set o = None -> o_move o = None ->
  let w' := snd (process_file o file w) in
  is_Some (redis w' !! md5_hexdigest data)
  <-> (is_Some (pg_rows w' !! basename (join inp file))
       /\ fs w' !! join inp file = None
       /\ is_Some (fs w' !! join proc (basename (join inp file)))).
Proof.
  intros Hi Hp Htb Hne Hf Hr Hrow Hc Hpend Hdb Hs Hm w'. subst w'.
  destruct (process_file_relocation o file w inp proc data Hi Hp Hf Hm Hne)
    as [Hsrc Hdst].
  pose proof (process_file_tail o file w inp Hi) as Htail.
  apply within_pg in Htail as (Hrows & _); [| exact (fun H => H)].
  rewrite Hrows, Hsrc, Hdst.
  assert (Hcases :
    (exists e, fst (process_try o file (join inp file) w) = Raise e
               /\ redis (snd (process_try o file (join inp file) w)) = redis w
               /\ pg_rows (snd (process_try o file (join inp file) w)) = pg_rows w)
    \/ (fst (process_try o file (join inp file) w) = Ok (true, md5_hexdigest data)
        /\ is_Some (pg_rows (snd (process_try o file (join inp file) w))
                    !! basename (join inp file)))).
  { destruct (process_try_unmarked o file (join inp file) w data Hf Hr)
      as [(e & w1 & E & Hr1 & Hrows1) | E].
    - left. exists e. rewrite E. auto.
    - rewrite E, bind_ret_run.
      destruct (process_new_connected o file (join inp file)
                  (entered file (md5_hexdigest data) w) db_table Hc Hpend Htb Hdb)
        as (m & _ & Hredis & _ & [(e & Ee & Hrows') | (Ee & row_data & _ & Hrows')]);
        rewrite Ee; simpl.
      + left. exists e. auto.
      + right. split; [done |]. rewrite Hrows'. rewrite lookup_insert_eq. eauto. }
  destruct Hcases as [(e & Ee & Hr1 & Hrows1) | (Ee & Hrec)].
  - rewrite (process_file_unmarked o file w inp e Hi Ee), Hr1, Hr, Hrows1, Hrow.
    split; [by intros [? ?] | by intros [[? ?] _]].
  - destruct (process_file_marks o file w inp proc _ Hi Hp Ee Hs)
      as (_ & Hmark & _).
    rewrite Hmark, lookup_insert_eq. split; eauto.
Qed.

(** *** Further properties: pose extraction *)

(** The loop over a stream whose frames all decode and are all inferred. *)
Lemma pose_loop_frames o frames kps rest start acc w :
  Forall2 (fun frame k => o_predict o (Some frame) = Ok k) frames kps ->
  rest = [] \/ (exists fr rest', rest = Ok (false, fr) :: rest') ->
  exists w',
    pose_loop o (((fun frame => Ok (true, Some frame)) <$> frames) ++ rest) start acc w
    = (Ok (acc ++ numbered start kps), w')
    /\ fs w' = fs w /\ redis w' = redis w /\ pg_rows w' = pg_rows w
    /\ pg_pending w' = pg_pending w /\ pg_connection w' = pg_connection w
    /\ log w' = log w
    /\ trace w' = trace w ++ ((fun frame => CallPredict (Some frame)) <$> frames).
Proof.
  intros Hk Hrest. revert start acc w.
  induction Hk as [| frame k frames kps Hp Hk IH]; intros start acc w.
  - exists w. unfold numbered. cbn. rewrite !app_nil_r.
    destruct Hrest as [-> | (fr & rest' & ->)]; cbn; auto 10.
  - cbn [fmap list_fmap app pose_loop].
    unfold bind at 1, of_result at 1. cbn [fst snd negb].
    unfold bind at 1, emit, modify, here. cbn [fst snd].
    unfold bind at 1, of_result at 1. rewrite Hp.
    destruct (IH (start + 1) (acc ++ [(start, k)])
                 (add_event (CallPredict (Some frame)) w))
      as (w' & E & Hfs & Hr & Hrows & Hpend & Hc & Hl & Ht).
    exists w'. rewrite E. cbn in *.
    split.
    + f_equal. f_equal. rewrite <- app_assoc. f_equal. unfold numbered. cbn.
      rewrite Z.add_0_r. f_equal. apply imap_ext. intros j x _. cbn.
      f_equal. lia.
    + rewrite Ht, <- app_assoc. auto 10.
Qed.

(** X9. On a stream that is open, whose frames all decode and are all
    inferred and whose sidecar can be written, [pose_detection] returns the
    path [<pose_data_folder>/<name>_pose.json] and leaves there the
    serialisation of one entry per frame, in order and numbered from 0;
    the model is called once per frame, in order, and not past the first
    read that reports the end; nothing else is written. *)
Theorem pose_detection_writes_ordered_sidecar
    o video_path w folder cap frames kps rest :
  CONFIG !! "pose_data_folder" = Some (CfgStr folder) ->
  o_pose_capture o = Ok cap -> cap_isOpened cap = true ->
  cap_reads cap = ((fun frame => Ok (true, Some frame)) <$> frames) ++ rest ->
  rest = [] \/ (exists fr rest', rest = Ok (false, fr) :: rest') ->
  Forall2 (fun frame k => o_predict o (Some frame) = Ok k) frames kps ->
  cap_release cap = None -> o_open_write o = None -> o_json_dump o = None ->
  let json_path :=
    join folder (fst (splitext (basename video_path)) +:+ "_pose.json") in
  let w' := snd (pose_detection o video_path w) in
  fst (pose_detection o video_path w) = Ok json_path
  /\ fs w' = <[json_path := json_dumps (numbered 0 kps)]> (fs w)
  /\ trace w' = trace w ++ CallPoseDetection video_path
                  :: ((fun frame => CallPredict (Some frame)) <$> frames)
  /\ redis w' = redis w /\ pg_rows w' = pg_rows w.
Proof.
  intros Hc Hcap Hopen Hreads Hrest Hk Hrel Hw Hd json_path w'.
  subst json_path w'.
  destruct (pose_loop_frames o frames kps rest 0 []
              (add_event (CallPoseDetection video_path) w) Hk Hrest)
    as (w1 & E & Hfs & Hr & Hrows & _ & _ & _ & Ht).
  unfold pose_detection, pose_try, try_except_else, bind, emit, of_result,
    of_fault, logging_info, modify, ret, config_path, config, here.
  cbn [fst snd]. rewrite Hcap. cbn [fst snd]. rewrite Hopen, Hreads, E.
  cbn [fst snd app]. rewrite Hrel. cbn [fst snd]. rewrite Hc. cbn [fst snd].
  rewrite Hw, Hd. cbn.
  rewrite insert_insert_eq, Hfs, Hr, Hrows, Ht. cbn.
  rewrite <- app_assoc. auto.
Qed.

(** The [try] suite of [pose_detection] writes no file. *)
Lemma pose_try_within F o video_path :
  (forall frame, fp_event F (CallPredict frame)) ->
  pres (within F) id (pose_try o video_path).
Proof.
  intros He. unfold pose_try. pres_auto. by apply pose_loop_within.
Qed.

Lemma pose_detection_failure o video_path w e :
  fst (pose_try o video_path (add_event (CallPoseDetection video_path) w)) = Raise e ->
  pose_detection o video_path w
  = (Ok "N/A",
     add_log ERROR
       ("unable to perform pose detection on video " +:+ video_path +:+ " - "
          +:+ str_exn e)
       (snd (pose_try o video_path (add_event (CallPoseDetection video_path) w)))).
Proof.
  intros Ht.
  unfold pose_detection, try_except_else, bind, emit, modify, logging_error,
    ret, here.
  cbn [fst snd].
  destruct (pose_try o video_path _) as [r w1]. cbn in *. by subst r.
Qed.

Lemma pose_detection_failure_fs o video_path w e :
  fst (pose_try o video_path (add_event (CallPoseDetection video_path) w)) = Raise e ->
  fs (snd (pose_detection o video_path w)) = fs w.
Proof.
  intros Ht. rewrite (pose_detection_failure o video_path w e Ht). cbn [snd].
  pose proof (pose_try_within
                {| fp_path := fun _ => False; fp_key := fun _ => False;
                   fp_pg := False; fp_event := fun _ => True |}
                o video_path (fun _ => I)
                (add_event (CallPoseDetection video_path) w)) as Hw.
  unfold id in Hw. by apply within_read_only in Hw as (Hfs & _).
Qed.

(** X10. When opening the stream, decoding a frame, the inference on a
    frame or releasing the stream raises, [pose_detection] returns the
    ["N/A"] sentinel, logs the error and writes no sidecar: the file system
    is as before, even if frames had already been inferred. *)
Theorem pose_detection_failure_writes_nothing o video_path w e :
  fst (pose_try o video_path (add_event (CallPoseDetection video_path) w)) = Raise e ->
  let w' := snd (pose_detection o video_path w) in
  fst (pose_detection o video_path w) = Ok "N/A"
  /\ fs w' = fs w /\ redis w' = redis w /\ pg_rows w' = pg_rows w
  /\ exists entries,
       log w' = log w ++ entries
                ++ [(ERROR, "unable to perform pose detection on video "
                              +:+ video_path +:+ " - " +:+ str_exn e)].
Proof.
  intros Ht. cbv zeta. rewrite (pose_detection_failure o video_path w e Ht).
  cbn [fst snd].
  pose proof (pose_try_within
                {| fp_path := fun _ => False; fp_key := fun _ => False;
                   fp_pg := False; fp_event := fun _ => True |}
                o video_path (fun _ => I)
                (add_event (CallPoseDetection video_path) w)) as Hw.
  unfold id in Hw. apply within_read_only in Hw as (Hfs & Hr & Hrows & _).
  split; [done |]. split; [exact Hfs |]. split; [exact Hr |].
  split; [exact Hrows |].
  clear Ht Hfs Hr Hrows.
  assert (H : pres (fun a b => exists l, log b = log a ++ l) id
                (pose_try o video_path)).
  { assert (Hrefl : Reflexive (fun a b : World => exists l, log b = log a ++ l)).
    { intros a. exists []. by rewrite app_nil_r. }
    assert (Htrans : Transitive (fun a b : World => exists l, log b = log a ++ l)).
    { intros a b c [l1 H1] [l2 H2]. exists (l1 ++ l2).
      by rewrite H2, H1, app_assoc. }
    assert (Hloop : forall reads i acc,
              pres (fun a b : World => exists l, log b = log a ++ l) id
                   (pose_loop o reads i acc)).
    { induction reads as [| r reads IH]; intros i acc; cbn [pose_loop].
      - by apply pres_ret.
      - apply pres_bind; [done | by apply pres_of_result |]. intros [b fr].
        destruct (negb b); [by apply pres_ret |].
        apply pres_bind; [done | |].
        + apply pres_modify. intros s. exists []. cbn. by rewrite app_nil_r.
        + intros _. apply pres_bind; [done | by apply pres_of_result |].
          intros k. apply IH. }
    unfold pose_try.
    apply pres_bind; [done | by apply pres_of_result |]. intros cap.
    apply pres_bind; [done | |].
    { destruct (cap_isOpened cap); [apply Hloop | by apply pres_ret]. }
    intros pd. apply pres_bind; [done | by apply pres_of_fault |]. intros _.
    apply pres_bind; [done | | intros _; by apply pres_ret].
    apply pres_modify. intros s. unfold here. cbn. eauto. }
  destruct (H (add_event (CallPoseDetection video_path) w)) as [l Hl].
  unfold id in Hl. exists l. unfold add_log at 1. cbn [log].
  rewrite Hl. unfold add_event. cbn [log]. by rewrite app_assoc.
Qed.

(** X11. A stream that the decoder does not open is not an error for
    [pose_detection]: the loop is not entered, the model is not called, and
    a sidecar with no frame entry is written and returned as the pose
    file of the video. *)
Theorem unopened_stream_gets_empty_sidecar o video_path w folder cap :
  CONFIG !! "pose_data_folder" = Some (CfgStr folder) ->
  o_pose_capture o = Ok cap -> cap_isOpened cap = false ->
  cap_release cap = None -> o_open_write o = None -> o_json_dump o = None ->
  let json_path :=
    join folder (fst (splitext (basename video_path)) +:+ "_pose.json") in
  let w' := snd (pose_detection o video_path w) in
  fst (pose_detection o video_path w) = Ok json_path
  /\ fs w' = <[json_path := json_dumps []]> (fs w)
  /\ trace w' = trace w ++ [CallPoseDetection video_path].
Proof.
  intros Hc Hcap Hopen Hrel Hw Hd.
  unfold pose_detection, pose_try, try_except_else, bind, emit, of_result,
    of_fault, logging_info, modify, ret, config_path, config, here.
  cbn [fst snd]. rewrite Hcap, Hopen. cbn [fst snd]. rewrite Hrel. cbn [fst snd].
  rewrite Hc. cbn [fst snd]. rewrite Hw, Hd. cbn.
  by rewrite insert_insert_eq.
Qed.


(** *** Further properties: relocation *)

(** X13. A move that does not fail puts the bytes of the file under the
    same base name in the processed folder, takes the file away from where
    it was, touches no other path and logs the move. *)
Theorem move_keeps_base_name o src proc data w :
  CONFIG !! "processed_folder" = Some (CfgStr proc) ->
  fs w !! src = Some data -> o_move o = None ->
  let dst := join proc (basename src) in
  let w' := snd (move_processed_file o src w) in
  basename dst = basename src
  /\ fs w' !! dst = Some data
  /\ (src <> dst -> fs w' !! src = None)
  /\ (forall p, p <> src -> p <> dst -> fs w' !! p = fs w !! p)
  /\ log w' = log w ++ [(INFO, "moved " +:+ basename src +:+ " to " +:+ dst)].
Proof.
  intros Hp Hf Hm. cbv zeta.
  split; [apply basename_join, basename_no_sep |].
  unfold move_processed_file, shutil_move, try_except_else, bind, config_path,
    config, of_result, of_fault, emit, modify, logging_info, ret, here.
  rewrite Hp. simpl. rewrite Hf. simpl. rewrite Hm. simpl.
  split; [apply lookup_insert_eq |]. split; [| split; [| done]].
  - intros Hne. rewrite lookup_insert_ne by done. apply lookup_delete_eq.
  - intros p H1 H2. rewrite lookup_insert_ne by done.
    by rewrite lookup_delete_ne.
Qed.

(** X14. [move_processed_file] never raises and tells its caller nothing.
    When the file is not there, or the processed folder is not a
    configured string, it logs one error and leaves the file system as it
    was.  When [shutil.move] raises, it logs one error, the source is
    still in place and no path but the destination has changed: the
    fallback copy of [shutil.move] may have written there. *)
Theorem move_failure_is_only_logged o src w :
  let w' := snd (move_processed_file o src w) in
  fst (move_processed_file o src w) = Ok tt
  /\ (fs w !! src = None
      \/ (forall proc, CONFIG !! "processed_folder" <> Some (CfgStr proc)) ->
      fs w' = fs w /\ exists msg, log w' = log w ++ [(ERROR, msg)])
  /\ (forall proc fault,
        CONFIG !! "processed_folder" = Some (CfgStr proc) ->
        is_Some (fs w !! src) -> o_move o = Some fault ->
        fs w' !! src = fs w !! src
        /\ (forall p, p <> join proc (basename src) -> fs w' !! p = fs w !! p)
        /\ (mf_left fault = None -> fs w' = fs w)
        /\ exists msg, log w' = log w ++ [(ERROR, msg)]).
Proof.
  cbv zeta. split; [apply move_processed_file_returns |].
  unfold move_processed_file, shutil_move, try_except_else, bind, config_path,
    config, of_result, of_fault, emit, modify, logging_info, logging_error, ret,
    raise, here.
  split.
  - intros H.
    destruct (CONFIG !! "processed_folder") as [[proc | n | l] |] eqn:Ec;
      cbn; eauto.
    destruct (fs w !! src) as [data |] eqn:Ef; cbn; eauto.
    destruct H as [H | H]; [done | by destruct (H proc)].
  - intros proc fault Hp [data Hf] Hm. rewrite Hp. cbn. rewrite Hf. cbn.
    rewrite Hm. destruct fault as [e [written |]]; cbn.
    + case_bool_decide as Hd; cbn; destruct e; cbn;
        (split; [try done; by rewrite lookup_insert_ne |]);
        (split; [try done; by intros p Hn; rewrite lookup_insert_ne |]);
        (split; [done | eauto]).
    + destruct e; cbn; eauto 10.
Qed.

(** *** Further properties: the result store without a connection *)

(** X15. Without a connection object ([self.connection] is [None], as
    after a failed [db_connect]) [db_insert] does raise: its handler calls
    [rollback] on [None].  The table is untouched.  The guard of the scan
    loop is what keeps this from happening: it skips the call and changes
    nothing. *)
Theorem db_insert_needs_connection o db_table row_data w :
  pg_connection w = None ->
  let w' := snd (db_insert o db_table row_data w) in
  fst (db_insert o db_table row_data w) = Raise AttributeError
  /\ pg_rows w' = pg_rows w /\ pg_pending w' = pg_pending w
  /\ persist o row_data w = (Ok tt, w).
Proof.
  intros Hc. cbv zeta. split; [| split; [| split]].
  1-3: unfold db_insert, connection_rollback, on_connection, try_except_else,
         bind, emit, logging_info, logging_error, modify, here;
       cbn; rewrite Hc; cbn; by rewrite Hc.
  apply persist_disconnected. unfold connection_live. by rewrite Hc.
Qed.

(** *** Further properties: the scan of a listing *)

Lemma endswith_tuple_strings s formats :
  endswith_tuple s (CfgStr <$> formats) = Ok (endswith_any s formats).
Proof.
  unfold endswith_any. induction formats as [| suf rest IH]; [done |].
  cbn [fmap list_fmap endswith_tuple existsb].
  destruct (endswith s suf); [done |]. exact IH.
Qed.

Lemma bind_run {S A B} (c : M S A) (k : A -> M S B) s :
  bind c k s = match c s with
               | (Ok a, s1) => k a s1
               | (Raise e, s1) => (Raise e, s1)
               end.
Proof. unfold bind. by destruct (c s) as [[a | e] s1]. Qed.

Lemma for_each_ext {S A} (xs : list A) (f g : A -> M S unit) :
  (forall x s, f x s = g x s) -> forall s, for_each xs f s = for_each xs g s.
Proof.
  intros H. induction xs as [| x xs IH]; intros s; [done |].
  cbn [for_each]. rewrite !bind_run, H.
  destruct (g x s) as [[[] | e] s1]; [apply IH | done].
Qed.

(** For a tuple of strings the loop of [scan_tuple] is that of
    [scan_listing]. *)
Lemma scan_tuple_strings oracle formats listing w :
  scan_tuple CONFIG md5_hexdigest json_dumps oracle (CfgStr <$> formats) listing w
  = scan_listing CONFIG md5_hexdigest json_dumps oracle formats listing w.
Proof.
  unfold scan_tuple, scan_listing. apply for_each_ext. intros file s.
  rewrite bind_run. unfold of_result. by rewrite endswith_tuple_strings.
Qed.

(** X16. Files with an ASCII name whose lower-cased form ends with none of
    the configured extensions (the test returning [False], so every entry
    of the tuple being a string) are not read, not fingerprinted, not
    moved and not logged: a listing of such files leaves the world as it
    was. *)
Theorem unsupported_files_are_ignored oracle formats listing w :
  Forall (fun file => ascii_only file = true
                      /\ endswith_tuple (lower file) formats = Ok false) listing ->
  scan_tuple CONFIG md5_hexdigest json_dumps oracle formats listing w = (Ok tt, w).
Proof.
  intros H. revert w. unfold scan_tuple.
  induction H as [| file rest [_ Hf] _ IH]; intros w; [done |].
  cbn [for_each]. rewrite !bind_run. unfold of_result. rewrite Hf. apply IH.
Qed.

(** X25. The test of the extension is outside the [try] of the loop body:
    an entry of the tuple that is not a string ends the loop with a
    [TypeError] at the first file that none of the entries before it
    matches; that file and the files after it are neither handled nor
    moved, and nothing is logged. *)
Theorem mistyped_extension_ends_scan oracle before entry after file rest w :
  (forall suf, entry <> CfgStr suf) ->
  ascii_only file = true -> endswith_any (lower file) before = false ->
  scan_tuple CONFIG md5_hexdigest json_dumps oracle
    ((CfgStr <$> before) ++ entry :: after) (file :: rest) w
  = (Raise TypeError, w).
Proof.
  intros He _ Hb. unfold scan_tuple. cbn [for_each].
  rewrite !bind_run. unfold of_result.
  assert (Ht : endswith_tuple (lower file) ((CfgStr <$> before) ++ entry :: after)
               = Raise TypeError).
  { revert Hb. unfold endswith_any.
    induction before as [| suf before IH]; cbn [fmap list_fmap app existsb endswith_tuple].
    - intros _. destruct entry as [suf | n | l]; [by destruct (He suf) | done | done].
    - intros [H1 H2]%orb_false_elim. rewrite H1. by apply IH. }
  by rewrite Ht.
Qed.

Lemma moves_none added :
  Forall (fun e => forall src dst, e <> CallMove src dst) added -> moves added = [].
Proof.
  induction 1 as [| e added He _ IH]; [done |].
  unfold moves in *. cbn. rewrite IH. destruct e; try done. by destruct (He src dst).
Qed.

Lemma process_file_moves o file w inp proc :
  CONFIG !! "input_folder" = Some (CfgStr inp) ->
  CONFIG !! "processed_folder" = Some (CfgStr proc) ->
  moves (trace (snd (process_file o file w)))
  = moves (trace w) ++ [(join inp file, join proc (basename (join inp file)))].
Proof.
  intros Hi Hp. rewrite (process_file_eq o file w inp Hi). unfold try_finally.
  destruct (attempt_within o file (join inp file) w)
    as (_ & _ & _ & _ & _ & added & Ht & Ha).
  unfold id in Ht.
  destruct (try_except_else _ _ _ w) as [r w1]. cbn [snd] in Ht.
  destruct (move_processed_file_run o (join inp file) proc w1 Hp)
    as (w2 & E & _ & _ & _ & _ & Ht2 & _).
  rewrite E. cbn [snd]. rewrite Ht2, Ht. unfold moves.
  rewrite !omap_app. fold (moves added). by rewrite (moves_none added Ha), app_nil_r.
Qed.

Lemma scan_listing_returns oracle formats listing w inp :
  CONFIG !! "input_folder" = Some (CfgStr inp) ->
  Forall (fun file => o_redis_set (oracle file) = None) listing ->
  fst (scan_listing CONFIG md5_hexdigest json_dumps oracle formats listing w) = Ok tt.
Proof.
  intros Hi H. revert w. unfold scan_listing.
  induction H as [| file rest Hs _ IH]; intros w; [done |].
  cbn [for_each]. unfold bind.
  destruct (endswith_any (lower file) formats).
  - pose proof (process_file_returns
                  (oracle file) file w inp Hi Hs) as Hr.
    destruct (process_file (oracle file) file w) as [[[] | e] w1];
      cbn in Hr; [apply IH | done].
  - apply IH.
Qed.

(** X17. With a tuple of strings for the extensions and ASCII file names,
    and as long as marking a fingerprint does not fail, the loop over a
    listing runs to its end whatever fails inside the body of any file,
    and it attempts exactly one move per file whose lower-cased name has a
    configured extension, in the order of the listing, each to the
    processed folder under the file's own name; no other file is moved. *)
Theorem scan_moves_each_selected_file_once oracle formats listing w inp proc :
  CONFIG !! "input_folder" = Some (CfgStr inp) ->
  CONFIG !! "processed_folder" = Some (CfgStr proc) ->
  Forall (fun file => ascii_only file = true
                      /\ o_redis_set (oracle file) = None) listing ->
  let w' := snd (scan_tuple CONFIG md5_hexdigest json_dumps oracle
                   (CfgStr <$> formats) listing w) in
  fst (scan_tuple CONFIG md5_hexdigest json_dumps oracle
         (CfgStr <$> formats) listing w) = Ok tt
  /\ moves (trace w')
     = moves (trace w)
       ++ ((fun file => (join inp file, join proc (basename (join inp file))))
             <$> filter (fun file => endswith_any (lower file) formats = true) listing).
Proof.
  intros Hi Hp H. cbv zeta. rewrite scan_tuple_strings.
  assert (Hs : Forall (fun file => o_redis_set (oracle file) = None) listing).
  { eapply Forall_impl; [exact H |]. by intros file [_ ?]. }
  clear H. split; [by eapply scan_listing_returns |].
  revert w. unfold scan_listing.
  induction Hs as [| file rest Hs _ IH]; intros w; [by rewrite app_nil_r |].
  cbn [for_each]. unfold bind. rewrite filter_cons.
  destruct (endswith_any (lower file) formats) eqn:Ef.
  - rewrite decide_True by done.
    pose proof (process_file_returns
                  (oracle file) file w inp Hi Hs) as Hr.
    pose proof (process_file_moves (oracle file) file w inp proc Hi Hp) as Hm.
    destruct (process_file (oracle file) file w) as [[[] | e] w1];
      cbn in Hr, Hm; [| done].
    rewrite IH, Hm, fmap_cons, <- app_assoc. done.
  - rewrite decide_False by done. apply IH.
Qed.

Lemma process_try_keeps_redis o file full_path w :
  redis (snd (process_try o file full_path w)) = redis w.
Proof.
  pose proof (process_try_within no_key_footprint o file full_path
                (fun _ _ => I) (fun _ => I) I (fun _ _ => I) w) as H.
  unfold id in H. destruct H as (_ & Hk & _).
  apply map_eq. intros k. apply Hk. exact (fun H => H).
Qed.

(** X18. When anything raises inside the [try] suite of a file (reading,
    asking Redis, the corruption check, the sidecar write, a failing
    rollback), the loop body logs the error and returns, Redis is left
    exactly as it was, so the fingerprint is not marked, and the move is
    still attempted last: a file whose move succeeds leaves the input
    folder unrecorded as processed. *)
Theorem failed_attempt_is_not_marked o file w inp proc e :
  CONFIG !! "input_folder" = Some (CfgStr inp) ->
  CONFIG !! "processed_folder" = Some (CfgStr proc) ->
  fst (process_try o file (join inp file) w) = Raise e ->
  let w' := snd (process_file o file w) in
  fst (process_file o file w) = Ok tt
  /\ redis w' = redis w
  /\ In (ERROR, "error while trying to process " +:+ file +:+ " - " +:+ str_exn e)
        (log w')
  /\ (exists added,
        trace w' = trace w ++ added
                   ++ [CallMove (join inp file)
                         (join proc (basename (join inp file)))]
        /\ forall k, ~ In (CallRedisSet k) added).
Proof.
  intros Hi Hp Ht. cbv zeta.
  pose proof (process_try_keeps_redis o file (join inp file) w) as Hr.
  pose proof (process_try_within
                {| fp_path := fun _ => True; fp_key := fun _ => False;
                   fp_pg := True;
                   fp_event := fun ev => forall k, ev <> CallRedisSet k |}
                o file (join inp file)) as Hw.
  destruct (Hw (fun ev Hev k => ltac:(by destruct ev)) (fun _ _ => ltac:(done)) I
               (fun _ _ => I) w)
    as (_ & _ & _ & _ & _ & added & Hta & Ha).
  unfold id in Hta. clear Hw.
  rewrite (process_file_eq o file w inp Hi).
  unfold try_finally, try_except_else.
  destruct (process_try o file (join inp file) w) as [r w1].
  cbn [fst snd] in *. subst r.
  unfold process_except, logging_error, modify, here.
  destruct (move_processed_file_run o (join inp file) proc
              (add_log ERROR
                 ("error while trying to process " +:+ file +:+ " - "
                    +:+ str_exn e) w1) Hp)
    as (w2 & E & Hr2 & _ & _ & _ & Ht2 & _).
  pose proof (move_processed_file_within CONFIG any_footprint o (join inp file)
                (fun _ => I) I (fun _ _ => I)
                (add_log ERROR
                   ("error while trying to process " +:+ file +:+ " - "
                      +:+ str_exn e) w1)) as Hm.
  assert (Hlog : forall l msg w0,
            In (l, msg) (log w0) ->
            In (l, msg) (log (snd (move_processed_file o (join inp file) w0)))).
  { intros l msg w0 Hin.
    unfold move_processed_file, shutil_move, try_except_else, bind, config_path,
      config, of_result, of_fault, emit, modify, logging_info, logging_error, ret,
      raise, here.
    rewrite Hp. cbn.
    destruct (fs w0 !! join inp file); cbn; [| apply in_or_app; by left].
    destruct (o_move o) as [[e0 [written |]] |]; cbn.
    - destruct (bool_decide _); cbn; destruct e0; cbn; apply in_or_app; by left.
    - destruct e0; cbn; apply in_or_app; by left.
    - apply in_or_app; by left. }
  specialize (Hlog ERROR
                ("error while trying to process " +:+ file +:+ " - " +:+ str_exn e)
                (add_log ERROR
                   ("error while trying to process " +:+ file +:+ " - "
                      +:+ str_exn e) w1)).
  rewrite E in Hlog |- *. cbn [fst snd] in *.
  split; [done |]. split; [by rewrite Hr2 |]. split.
  - apply Hlog. cbn. apply in_or_app. right. by left.
  - exists added. split; [by rewrite Ht2, app_assoc; cbn; rewrite Hta |].
    intros k Hin.
    rewrite Forall_forall in Ha. apply list_elem_of_In, Ha in Hin.
    by destruct (Hin k).
Qed.



(** *** Further properties: what is recorded after a failed pose extraction *)

(** X20. A video that passes the corruption check and on which the pose
    extraction fails (decoder or model) is still recorded: with a live
    connection and no failing upsert the suite returns and the committed
    row of the file says not corrupted, with ["N/A"] for the pose file;
    no file is written. *)
Theorem pose_failure_is_recorded o file full_path w db_table :
  pg_connection w = Some 0 -> pg_pending w = None ->
  CONFIG !! "db_table_name" = Some db_table -> no_db_fault o ->
  (forall w0, fst (is_corrupted o full_path w0) = Ok false) ->
  (forall w0, exists e, fst (pose_try o full_path w0) = Raise e) ->
  let w' := snd (process_new o file full_path w) in
  fst (process_new o file full_path w) = Ok tt
  /\ fs w' = fs w
  /\ exists row_data,
       pg_rows w' !! basename full_path = Some (mkRow row_data (o_now o))
       /\ video_filename row_data = basename full_path
       /\ corrupted row_data = Some false
       /\ pose_file_path row_data = "N/A".
Proof.
  intros Hc Hpend Ht Hdb Hcheck Hpose. cbv zeta.
  destruct (process_new_cases o file full_path w)
    as (m & w1 & w2 & Hm & H1 & H2 & Hcases).
  assert (H12 : within (probe_footprint full_path) w w2) by (by etrans).
  apply within_read_only in H12 as (Hfs2 & _ & Hrows2 & Hpend2 & Hc2 & _).
  destruct Hcases as [(e & Hx & _) | [(Hx & _) | (_ & w3 & H3 & Hcases)]];
    [by rewrite Hcheck in Hx | by rewrite Hcheck in Hx |].
  destruct (Hpose (add_event (CallPoseDetection full_path) w2)) as [e He].
  pose proof (pose_detection_failure o full_path w2 e He) as Hpd.
  pose proof (pose_detection_failure_fs o full_path w2 e He) as Hfs3.
  assert (Hp : exists p, pose_detection o full_path w2 = (Ok p, w3)
                         /\ p = "N/A"
                         /\ process_new o file full_path w
                            = persist o (set_corrupted false (set_pose_file_path p m)) w3).
  { destruct Hcases as [(e' & E & _) | (p & E & Hn)].
    - rewrite Hpd in E. discriminate.
    - exists p. split; [done |]. split; [| done]. rewrite Hpd in E. congruence. }
  destruct Hp as (p & E & -> & Hn).
  rewrite E in Hfs3. cbn [snd] in Hfs3.
  destruct (within_pg _ _ _ H3 (fun H => H)) as (Hrows3 & Hpend3 & Hc3).
  rewrite Hn.
  rewrite (persist_connected o _ w3 db_table)
    by (try apply connection_live_iff; congruence).
  destruct (db_insert_success o db_table
              (set_corrupted false (set_pose_file_path "N/A" m)) w3
              ltac:(congruence) Hdb)
    as (w4 & E4 & Hrows4 & _ & _ & Hfs4 & _).
  rewrite E4. cbn [fst snd].
  split; [done |]. split; [congruence |].
  assert (Hname : video_filename (set_corrupted false (set_pose_file_path "N/A" m))
                  = basename full_path).
  { by apply populated_video_filename in Hm. }
  rewrite Hrows4. unfold upsert, rows_in_transaction. rewrite Hpend3, Hpend2, Hpend.
  rewrite Hname.
  destruct (pg_rows w3 !! basename full_path) as [old |].
  - eexists. split; [apply lookup_insert_eq |]. cbn. auto.
  - exists (set_corrupted false (set_pose_file_path "N/A" m)).
    split; [apply lookup_insert_eq |]. auto.
Qed.

(** *** Further properties: start-up and the endless loop *)

Lemma missing_lines_world keys w :
  let w' := foldl (fun w' key => add_log ERROR (snd (missing_key_line key)) w') w keys in
  log w' = log w ++ (missing_key_line <$> keys)
  /\ fs w' = fs w /\ redis w' = redis w /\ pg_connection w' = pg_connection w
  /\ pg_rows w' = pg_rows w /\ trace w' = trace w.
Proof.
  cbv zeta. revert w. induction keys as [| key rest IH]; intros w.
  - cbn. by rewrite app_nil_r.
  - cbn [foldl]. destruct (IH (add_log ERROR (snd (missing_key_line key)) w))
      as (Hl & Hfs & Hr & Hc & Hrows & Ht).
    rewrite Hl, Hfs, Hr, Hc, Hrows, Ht. cbn. by rewrite <- app_assoc.
Qed.

(** X21. The pose model is loaded when the module is loaded, before the
    configuration is validated: without a [model_path] key the program
    ends with an uncaught [KeyError], not with the exit code of an invalid
    configuration, and an error of the model loader ends it the same way,
    whatever else the configuration holds; nothing is logged. *)
Theorem model_is_loaded_before_validation boot env arrivals cycles w :
  (CONFIG !! "model_path" = None ->
   main CONFIG md5_hexdigest json_dumps boot env arrivals cycles w
   = (Crashed (KeyError "model_path"), w))
  /\ (forall e, is_Some (CONFIG !! "model_path") -> b_yolo boot = Some e ->
      main CONFIG md5_hexdigest json_dumps boot env arrivals cycles w
      = (Crashed e, w)).
Proof.
  split.
  - intros Hm. unfold main, startup, bind, config, of_result. by rewrite Hm.
  - intros e [v Hm] Hy.
    unfold main, startup, bind, config, of_result, of_fault. by rewrite Hm, Hy.
Qed.

(** X22. With the model loaded and a key of the seven missing, the program
    exits with code 1 before anything else: one error line per missing
    key, then the exit line; no folder is made, no connection opened, no
    file looked at. *)
Theorem invalid_config_exits_before_scanning boot env arrivals cycles w :
  is_Some (CONFIG !! "model_path") -> b_yolo boot = None ->
  missing_keys CONFIG <> [] ->
  let w' := snd (main CONFIG md5_hexdigest json_dumps boot env arrivals cycles w) in
  fst (main CONFIG md5_hexdigest json_dumps boot env arrivals cycles w) = Exited 1
  /\ log w' = log w ++ (missing_key_line <$> missing_keys CONFIG)
                ++ [(ERROR, "init configuration failed, please check config.json. exiting...")]
  /\ fs w' = fs w /\ redis w' = redis w /\ pg_connection w' = pg_connection w
  /\ pg_rows w' = pg_rows w /\ trace w' = trace w.
Proof.
  intros [v Hm] Hy Hk. cbv zeta.
  unfold main, startup, bind, config, of_result, of_fault, init_config.
  rewrite Hm, Hy. cbn [fst snd]. rewrite init_config_loop_run.
  fold (missing_keys CONFIG). rewrite bool_decide_eq_false_2 by done.
  cbn [andb negb fst snd].
  destruct (missing_lines_world (missing_keys CONFIG) w)
    as (Hl & Hfs & Hr & Hc & Hrows & Ht).
  revert Hl Hfs Hr Hc Hrows Ht.
  generalize (foldl (fun w' key => add_log ERROR (snd (missing_key_line key)) w')
                w (missing_keys CONFIG)).
  intros w1 Hl Hfs Hr Hc Hrows Ht.
  unfold logging_error, modify, ret, here. cbn.
  rewrite Hl, Hfs, Hr, Hc, Hrows, Ht. by rewrite <- app_assoc.
Qed.

(** X23. The validation looks at presence only: a configuration with all
    seven keys whose [input_folder] is not a string passes it and the
    program then ends with an uncaught [TypeError] where the folder is
    made. *)
Theorem wrong_typed_folder_crashes_after_validation
    boot env arrivals cycles w v :
  missing_keys CONFIG = [] -> b_yolo boot = None ->
  CONFIG !! "input_folder" = Some v -> (forall s, v <> CfgStr s) ->
  main CONFIG md5_hexdigest json_dumps boot env arrivals cycles w
  = (Crashed TypeError, w).
Proof.
  intros Hk Hy Hi Hv.
  assert (Hm : is_Some (CONFIG !! "model_path")).
  { destruct (CONFIG !! "model_path") eqn:E; [eauto |].
    unfold missing_keys, expected_config_keys in Hk.
    rewrite !filter_cons in Hk. rewrite E in Hk.
    repeat (destruct (decide _) in Hk; try discriminate).
    all: exfalso; match goal with H : ~ ~ is_Some None |- _ => apply H end;
      by intros [? ?]. }
  destruct Hm as [m Hm].
  unfold main, startup, bind, config_path, config, of_result, of_fault, init_config.
  rewrite Hm, Hy. cbn [fst snd]. rewrite init_config_loop_run.
  fold (missing_keys CONFIG). rewrite Hk. cbn. rewrite Hi. cbn.
  destruct v as [s | n | l]; [by destruct (Hv s) | done | done].
Qed.

Lemma scan_cycle_run oc formats w inp v :
  CONFIG !! "input_folder" = Some (CfgStr inp) ->
  CONFIG !! "scan_interval_sec" = Some v ->
  c_listdir oc = None ->
  (forall file, o_redis_set (c_file oc file) = None) ->
  fst (scan_cycle CONFIG md5_hexdigest json_dumps oc (CfgStr <$> formats) w)
  = time_sleep v
  /\ exists before,
       log (snd (scan_cycle CONFIG md5_hexdigest json_dumps oc (CfgStr <$> formats) w))
       = before ++ [(INFO, "Waiting...")].
Proof.
  intros Hi Hs Hl Ho.
  unfold scan_cycle, bind, logging_info, modify, config_path, config, of_result,
    listdir, of_fault, gets, here.
  rewrite Hi, Hl. unfold bind, ret. cbn [fst snd].
  match goal with |- context [scan_tuple _ _ _ ?oracle _ ?l ?x] =>
    pose proof (scan_listing_returns oracle formats l x inp Hi
                  ltac:(apply Forall_forall; intros; apply Ho)) as Hr;
    rewrite <- scan_tuple_strings in Hr;
    destruct (scan_tuple CONFIG md5_hexdigest json_dumps oracle
                (CfgStr <$> formats) l x) as [[[] | e] w1]
  end; cbn in Hr; [| done].
  rewrite Hs. cbn. destruct (time_sleep v) as [[] | e]; cbn; eauto.
Qed.

(** X24. Once in its loop the program stays in it: with a string for the
    input folder, a tuple of strings for the extensions and a scan
    interval that [time.sleep] accepts, and as long as [os.listdir] and
    the marking of a fingerprint do not fail, every cycle returns and the
    next one starts, for any number of cycles, whatever fails inside the
    body of any file and whatever arrives in between. *)
Theorem scan_loop_keeps_running env formats arrivals cycles k w inp v :
  CONFIG !! "input_folder" = Some (CfgStr inp) ->
  CONFIG !! "scan_interval_sec" = Some v -> time_sleep v = Ok tt ->
  (forall j, c_listdir (env j) = None) ->
  (forall j file, o_redis_set (c_file (env j) file) = None) ->
  fst (scan_loop CONFIG md5_hexdigest json_dumps env (CfgStr <$> formats)
         arrivals cycles k w)
  = Running.
Proof.
  intros Hi Hs Hv Hl Ho. revert k w.
  induction cycles as [| c IH]; intros k w; [done |]. cbn [scan_loop].
  destruct (scan_cycle_run (env k) formats w inp v Hi Hs (Hl k) (Ho k)) as [Hr _].
  rewrite Hv in Hr.
  destruct (scan_cycle CONFIG md5_hexdigest json_dumps (env k)
              (CfgStr <$> formats) w)
    as [[[] | e] w1]; cbn in Hr; [apply IH | done].
Qed.

(** X26. The scan interval is first used after the first listing has been
    handled: a value that [time.sleep] rejects (a string, a list, a
    negative number, more seconds than fit in 64-bit nanoseconds) passes
    the validation, the first cycle runs in full up to its last log line,
    and the program then ends with the exception of [time.sleep]. *)
Theorem bad_interval_ends_after_first_cycle
    env formats arrivals cycles k w inp v e :
  CONFIG !! "input_folder" = Some (CfgStr inp) ->
  CONFIG !! "scan_interval_sec" = Some v -> time_sleep v = Raise e ->
  c_listdir (env k) = None ->
  (forall file, o_redis_set (c_file (env k) file) = None) ->
  let run := scan_loop CONFIG md5_hexdigest json_dumps env (CfgStr <$> formats)
               arrivals (S cycles) k w in
  fst run = Crashed e
  /\ exists before, log (snd run) = before ++ [(INFO, "Waiting...")].
Proof.
  intros Hi Hs Hv Hl Ho. cbv zeta. cbn [scan_loop].
  destruct (scan_cycle_run (env k) formats w inp v Hi Hs Hl Ho) as [Hr Hlog].
  rewrite Hv in Hr.
  destruct (scan_cycle CONFIG md5_hexdigest json_dumps (env k)
              (CfgStr <$> formats) w)
    as [[[] | e'] w1]; cbn in Hr; [done |]. injection Hr as ->.
  cbn [fst snd] in *. auto.
Qed.

End Loop.

(** ** The sentences that fail as written, and runs of the theorems *)

(** C1, the invariant as written fails: with the connection down the
    fingerprint of a handled file is marked and no row exists. *)
Lemma marked_without_record : ~ marked_iff_recorded_and_relocated.
Proof.
  intros H.
  specialize (H demo_config demo_md5 demo_json (calm_oracle clip_capture 1)
                "a.mp4" two_clips_offline "in" "done" "AAAA").
  destruct H as [H _];
    [by vm_compute | by vm_compute | by vm_compute | by vm_compute
    | by vm_compute | by vm_compute | by vm_compute |].
  destruct H as [[row Hrow] _]; [vm_compute; eauto |].
  vm_compute in Hrow. discriminate.
Qed.


(** C5, the sentence as written fails: [db_insert] returns normally after
    a failed [execute]. *)
Lemma upsert_error_not_reported : ~ upsert_errors_reported.
Proof.
  intros H.
  destruct (H execute_fails (CfgStr "video_processing_results")
              (new_fields "a.mp4") connected_world
              (Exception "relation does not exist")) as [_ Hr];
    [reflexivity | reflexivity | right; left; split; reflexivity |].
  vm_compute in Hr. discriminate.
Qed.

(** C6, the sentence as written fails: two upserts within one tick of the
    server clock leave the same stamp. *)
Lemma stamp_not_later_within_one_tick : ~ upsert_stamp_strictly_later.
Proof.
  intros H.
  destruct (H (calm_oracle clip_capture 1) (calm_oracle clip_capture 1)
              (CfgStr "video_processing_results")
              (new_fields "a.mp4") (set_codec "h264" (new_fields "a.mp4"))
              connected_world eq_refl eq_refl
              ltac:(repeat split; reflexivity) ltac:(repeat split; reflexivity)
              eq_refl ltac:(intros E; apply (f_equal codec) in E; discriminate)
              (mkRow (new_fields "a.mp4") 1)
              (mkRow (set_codec "h264" (new_fields "a.mp4")) 1))
    as [_ Hlt]; [by vm_compute | by vm_compute |].
  simpl in Hlt. lia.
Qed.

(** The run behind C3: the mark of the first file fails, the process ends
    with that exception; the first file has its row and has been moved but
    is not marked, the second file has not been touched. *)
Lemma mark_failure_ends_process :
  let run := main demo_config demo_md5 demo_json
               {| b_yolo := None; b_makedirs := None; b_connect := Ok 0 |}
               (fun _ => {| c_listdir := None; c_file := fun _ => mark_fails |})
               (fun _ => ∅) 3 two_clips in
  fst run = Crashed (Exception "Connection reset by peer")
  /\ fs (snd run) !! "in/b.mp4" = Some "BBBB"
  /\ fs (snd run) !! "done/a.mp4" = Some "AAAA"
  /\ is_Some (pg_rows (snd run) !! "a.mp4")
  /\ redis (snd run) = ∅.
Proof. vm_compute. repeat split; eauto. Qed.

(** The run behind C9: the sidecar cannot be opened for writing. *)
Lemma sidecar_write_error_run :
  fst (pose_detection demo_config demo_json sidecar_write_fails "in/a.mp4" two_clips)
  = Raise PermissionError.
Proof. by vm_compute. Qed.

Lemma marked_iff_recorded_witness :
  let w' := snd (process_file demo_config demo_md5 demo_json
                   (calm_oracle clip_capture 1) "a.mp4" two_clips) in
  is_Some (redis w' !! demo_md5 "AAAA")
  <-> (is_Some (pg_rows w' !! basename (join "in" "a.mp4"))
       /\ fs w' !! join "in" "a.mp4" = None
       /\ is_Some (fs w' !! join "done" (basename (join "in" "a.mp4")))).
Proof.
  apply (marked_iff_recorded demo_config demo_md5 demo_json
           (calm_oracle clip_capture 1) "a.mp4" two_clips "in" "done" "AAAA"
           (CfgStr "video_processing_results"));
    by vm_compute.
Defined.


Lemma mark_failure_leaves_scan_witness :
  scan_listing demo_config demo_md5 demo_json (fun _ => mark_fails) [".mp4"]
    ["a.mp4"; "b.mp4"] two_clips
  = (Raise (Exception "Connection reset by peer"),
     snd (process_file demo_config demo_md5 demo_json mark_fails "a.mp4" two_clips)).
Proof.
  apply (mark_failure_leaves_scan demo_config demo_md5 demo_json
           (fun _ => mark_fails) [".mp4"] "a.mp4" ["b.mp4"] two_clips "in"
           "md5:AAAA" (Exception "Connection reset by peer"));
    by vm_compute.
Defined.

Lemma offline_marks_without_record_witness :
  let w' := snd (process_file demo_config demo_md5 demo_json
                   (calm_oracle clip_capture 1) "a.mp4" two_clips_offline) in
  pg_rows w' = pg_rows two_clips_offline
  /\ redis w' !! demo_md5 "AAAA" = Some "processed"
  /\ fs w' !! join "in" "a.mp4" = None.
Proof.
  destruct (offline_marks_without_record demo_config demo_md5 demo_json
              (calm_oracle clip_capture 1) "a.mp4" two_clips_offline
              "in" "done" "AAAA")
    as (_ & _ & Hrows & _ & Hmark & Hsrc & _); [by vm_compute .. |].
  auto.
Defined.

Lemma upsert_error_rolled_back_and_logged_witness :
  let r := fst (db_insert execute_fails (CfgStr "video_processing_results")
                  (new_fields "a.mp4") connected_world) in
  let w' := snd (db_insert execute_fails (CfgStr "video_processing_results")
                   (new_fields "a.mp4") connected_world) in
  pg_rows w' = pg_rows connected_world /\ r = Ok tt.
Proof.
  destruct (upsert_error_rolled_back_and_logged demo_config demo_md5 demo_json
              execute_fails (CfgStr "video_processing_results")
              (new_fields "a.mp4") connected_world
              (Exception "relation does not exist"))
    as (Hrows & _ & Hret & _);
    [reflexivity | reflexivity | right; left; split; reflexivity |].
  split; [exact Hrows | by apply Hret].
Defined.

Lemma upsert_overwrites_witness :
  let r1 := new_fields "a.mp4" in
  let r2 := set_codec "h264" (new_fields "a.mp4") in
  let w1 := snd (db_insert (calm_oracle clip_capture 1)
                   (CfgStr "video_processing_results") r1 connected_world) in
  let w2 := snd (db_insert (calm_oracle clip_capture 2)
                   (CfgStr "video_processing_results") r2 w1) in
  pg_rows w2 !! "a.mp4" = Some (mkRow r2 2) /\ size (pg_rows w2) = size (pg_rows w1).
Proof.
  destruct (upsert_overwrites (calm_oracle clip_capture 1) (calm_oracle clip_capture 2)
              (CfgStr "video_processing_results")
              (new_fields "a.mp4") (set_codec "h264" (new_fields "a.mp4"))
              connected_world)
    as (_ & _ & _ & H2 & _ & Hsize & _);
    [reflexivity | reflexivity | repeat split; reflexivity
    | repeat split; reflexivity | reflexivity |].
  split; [exact H2 | exact Hsize].
Defined.

Lemma corrupted_short_circuit_witness :
  let w' := snd (process_file demo_config demo_md5 demo_json
                   (calm_oracle unreadable_capture 1) "a.mp4" two_clips) in
  exists row_data,
    pg_rows w' !! basename (join "in" "a.mp4") = Some (mkRow row_data 1)
    /\ corrupted row_data = Some true
    /\ pose_file_path row_data = "N/A".
Proof.
  destruct (corrupted_short_circuit demo_config demo_md5 demo_json
              (calm_oracle unreadable_capture 1) "a.mp4" two_clips "in")
    as (_ & H); [by vm_compute | intros w0; reflexivity |].
  destruct (H "AAAA" (CfgStr "video_processing_results"))
    as (row_data & Hrow & _ & Hc & Hp); [by vm_compute .. |].
  exists row_data. auto.
Defined.

Lemma sidecar_write_error_propagates_witness :
  fst (pose_detection demo_config demo_json sidecar_write_fails "in/a.mp4" two_clips)
  = Raise PermissionError.
Proof.
  eapply (sidecar_write_error_propagates demo_config demo_json sidecar_write_fails
            "in/a.mp4" two_clips "pose").
  - by vm_compute.
  - vm_compute. reflexivity.
  - left. reflexivity.
Defined.



(** ** Runs of the further properties *)

Lemma get_video_codec_never_raises_witness :
  get_video_codec here ffprobe_fails "in/a.mp4" empty_world
  = (Ok "N/A",
     add_log ERROR ("Failed to extract codec: " +:+ str_exn (Exception "ffprobe not found"))
       empty_world).
Proof.
  destruct (get_video_codec_never_raises ffprobe_fails "in/a.mp4" empty_world)
    as (_ & _ & _ & H & _).
  apply H. reflexivity.
Defined.

Lemma codec_failure_keeps_metadata_witness :
  exists m,
    probed ffprobe_fails "in/a.mp4" empty_world = Ok m
    /\ codec m = "N/A" /\ resolution m = "640 x 480".
Proof.
  destruct (codec_failure_keeps_metadata ffprobe_fails "in/a.mp4" empty_world
              clip_capture 10%float 10 5%float 640%float 640 480%float 480)
    as (m & E & _ & _ & Hres & Hc & _);
    [by vm_compute | by vm_compute | by vm_compute | by vm_compute | by vm_compute
    | by vm_compute | by vm_compute | by vm_compute | by vm_compute |].
  exists m. split; [exact E |]. split.
  - eapply Hc. reflexivity.
  - rewrite Hres. by vm_compute.
Defined.

Lemma is_corrupted_verdict_witness :
  fst (is_corrupted (calm_oracle closed_capture 1) "in/a.mp4" empty_world) = Ok true.
Proof.
  destruct (is_corrupted_verdict (calm_oracle closed_capture 1) "in/a.mp4"
              empty_world closed_capture) as (H & _); [reflexivity |].
  apply H; reflexivity.
Defined.

Lemma db_connect_never_raises_witness :
  fst (db_connect database_down empty_world) = Ok tt
  /\ pg_connection (snd (db_connect database_down empty_world)) = None.
Proof.
  destruct (db_connect_never_raises database_down empty_world)
    as (Hr & _ & He & _); [reflexivity |].
  split; [exact Hr |].
  by destruct (He (Exception "connection refused")).
Defined.

Lemma upsert_leaves_other_rows_witness :
  let w' := snd (db_insert (calm_oracle clip_capture 1)
                   (CfgStr "video_processing_results") (new_fields "a.mp4")
                   connected_world) in
  pg_rows w' !! "a.mp4" = Some (mkRow (new_fields "a.mp4") 1)
  /\ pg_rows w' !! "b.mp4" = None.
Proof.
  destruct (upsert_leaves_other_rows (calm_oracle clip_capture 1)
              (CfgStr "video_processing_results") (new_fields "a.mp4")
              connected_world)
    as (Hrow & Hother & _);
    [reflexivity | reflexivity | repeat split; reflexivity |].
  split; [exact Hrow |]. rewrite (Hother "b.mp4"); by vm_compute.
Defined.

Lemma init_config_checks_presence_witness :
  log (snd (init_config incomplete_config empty_world))
  = [(ERROR, "config.json file missing required key: db_table_name")].
Proof.
  destruct (init_config_checks_presence incomplete_config empty_world)
    as (_ & _ & Hl).
  rewrite Hl. by vm_compute.
Defined.

Lemma capital_extension_never_matches_witness :
  endswith (lower "CLIP.MP4") ".MP4" = false.
Proof.
  destruct (capital_extension_never_matches "CLIP.MP4" [".MP4"]) as [H _].
  apply H. reflexivity.
Defined.

Lemma pose_detection_writes_ordered_sidecar_witness :
  let run := pose_detection demo_config demo_json (calm_oracle clip_capture 1)
               "in/a.mp4" two_clips in
  fst run = Ok "pose/a_pose.json"
  /\ fs (snd run) !! "pose/a_pose.json" = Some "frames:10".
Proof.
  destruct (pose_detection_writes_ordered_sidecar demo_config demo_json
              (calm_oracle clip_capture 1) "in/a.mp4" two_clips "pose"
              clip_capture (repeat [0] 10) (repeat [] 10) [])
    as (Hr & Hfs & _);
    [by vm_compute | reflexivity | reflexivity | reflexivity | by left
    | repeat constructor | reflexivity | reflexivity | reflexivity |].
  cbv zeta. split.
  - rewrite Hr. by vm_compute.
  - rewrite Hfs. by vm_compute.
Defined.

Lemma pose_detection_failure_writes_nothing_witness :
  let run := pose_detection demo_config demo_json model_fails "in/a.mp4" two_clips in
  fst run = Ok "N/A" /\ fs (snd run) = fs two_clips.
Proof.
  destruct (pose_detection_failure_writes_nothing demo_config demo_json
              model_fails "in/a.mp4" two_clips (Exception "CUDA out of memory"))
    as (Hr & Hfs & _); [by vm_compute |].
  split; [exact Hr | exact Hfs].
Defined.

Lemma unopened_stream_gets_empty_sidecar_witness :
  let run := pose_detection demo_config demo_json (calm_oracle closed_capture 1)
               "in/a.mp4" two_clips in
  fst run = Ok "pose/a_pose.json"
  /\ fs (snd run) !! "pose/a_pose.json" = Some "frames:0".
Proof.
  destruct (unopened_stream_gets_empty_sidecar demo_config demo_json
              (calm_oracle closed_capture 1) "in/a.mp4" two_clips "pose"
              closed_capture)
    as (Hr & Hfs & _);
    [by vm_compute | reflexivity | reflexivity | reflexivity | reflexivity
    | reflexivity |].
  cbv zeta. split.
  - rewrite Hr. by vm_compute.
  - rewrite Hfs. by vm_compute.
Defined.


Lemma move_keeps_base_name_witness :
  let w' := snd (move_processed_file demo_config (calm_oracle clip_capture 1)
                   "in/a.mp4" two_clips) in
  fs w' !! "done/a.mp4" = Some "AAAA" /\ fs w' !! "in/a.mp4" = None.
Proof.
  destruct (move_keeps_base_name demo_config (calm_oracle clip_capture 1)
              "in/a.mp4" "done" "AAAA" two_clips)
    as (_ & Hdst & Hsrc & _); [by vm_compute | by vm_compute | reflexivity |].
  split; [exact Hdst |]. apply Hsrc. by vm_compute.
Defined.

Lemma move_failure_is_only_logged_witness :
  let w' := snd (move_processed_file demo_config unlink_fails "in/a.mp4" two_clips) in
  fs w' !! "in/a.mp4" = Some "AAAA" /\ fs w' !! "in/b.mp4" = Some "BBBB".
Proof.
  destruct (move_failure_is_only_logged demo_config unlink_fails "in/a.mp4" two_clips)
    as (_ & _ & H).
  destruct (H "done" {| mf_exn := PermissionError; mf_left := Some "AAAA" |})
    as (Hsrc & Hother & _); [by vm_compute | vm_compute; eauto | reflexivity |].
  cbv zeta. split.
  - rewrite Hsrc. by vm_compute.
  - rewrite Hother; by vm_compute.
Defined.

Lemma db_insert_needs_connection_witness :
  fst (db_insert (calm_oracle clip_capture 1) (CfgStr "video_processing_results")
         (new_fields "a.mp4") two_clips_offline)
  = Raise AttributeError
  /\ persist demo_config (calm_oracle clip_capture 1) (new_fields "a.mp4")
       two_clips_offline
     = (Ok tt, two_clips_offline).
Proof.
  destruct (db_insert_needs_connection demo_config (calm_oracle clip_capture 1)
              (CfgStr "video_processing_results") (new_fields "a.mp4")
              two_clips_offline)
    as (Hr & _ & _ & Hp); [reflexivity |].
  split; [exact Hr | exact Hp].
Defined.

Lemma unsupported_files_are_ignored_witness :
  scan_tuple demo_config demo_md5 demo_json (fun _ => calm_oracle clip_capture 1)
    [CfgStr ".mp4"; CfgStr ".avi"] ["notes.txt"; "b.mkv"] two_clips
  = (Ok tt, two_clips).
Proof.
  apply (unsupported_files_are_ignored demo_config demo_md5 demo_json
           (fun _ => calm_oracle clip_capture 1) [CfgStr ".mp4"; CfgStr ".avi"]
           ["notes.txt"; "b.mkv"] two_clips).
  repeat constructor.
Defined.

Lemma mistyped_extension_ends_scan_witness :
  scan_tuple demo_config demo_md5 demo_json (fun _ => calm_oracle clip_capture 1)
    [CfgStr ".avi"; CfgNum 4; CfgStr ".mp4"] ["a.mp4"; "b.mp4"] two_clips
  = (Raise TypeError, two_clips).
Proof.
  apply (mistyped_extension_ends_scan demo_config demo_md5 demo_json
           (fun _ => calm_oracle clip_capture 1) [".avi"] (CfgNum 4)
           [CfgStr ".mp4"] "a.mp4" ["b.mp4"] two_clips);
    [done | reflexivity | reflexivity].
Defined.

Lemma scan_moves_each_selected_file_once_witness :
  moves (trace (snd (scan_tuple demo_config demo_md5 demo_json
                       (fun _ => calm_oracle clip_capture 1)
                       [CfgStr ".mp4"; CfgStr ".avi"]
                       ["a.mp4"; "notes.txt"; "b.mp4"] two_clips)))
  = [("in/a.mp4", "done/a.mp4"); ("in/b.mp4", "done/b.mp4")].
Proof.
  destruct (scan_moves_each_selected_file_once demo_config demo_md5 demo_json
              (fun _ => calm_oracle clip_capture 1) [".mp4"; ".avi"]
              ["a.mp4"; "notes.txt"; "b.mp4"] two_clips "in" "done")
    as (_ & Hm); [by vm_compute | by vm_compute | repeat constructor |].
  cbn [fmap list_fmap] in Hm. rewrite Hm. by vm_compute.
Defined.

Lemma failed_attempt_is_not_marked_witness :
  let run := process_file demo_config demo_md5 demo_json read_fails "a.mp4" two_clips in
  fst run = Ok tt /\ redis (snd run) = redis two_clips.
Proof.
  destruct (failed_attempt_is_not_marked demo_config demo_md5 demo_json
              read_fails "a.mp4" two_clips "in" "done" PermissionError)
    as (Hr & Hk & _); [by vm_compute | by vm_compute | by vm_compute |].
  split; [exact Hr | exact Hk].
Defined.


Lemma pose_failure_is_recorded_witness :
  let w' := snd (process_new demo_config demo_json model_fails "a.mp4" "in/a.mp4"
                   two_clips) in
  exists row_data,
    pg_rows w' !! "a.mp4" = Some (mkRow row_data 1)
    /\ corrupted row_data = Some false /\ pose_file_path row_data = "N/A".
Proof.
  destruct (pose_failure_is_recorded demo_config demo_json model_fails
              "a.mp4" "in/a.mp4" two_clips (CfgStr "video_processing_results"))
    as (_ & _ & row_data & Hrow & _ & Hc & Hp);
    [reflexivity | reflexivity | by vm_compute | repeat split; reflexivity
    | intros w0; reflexivity
    | intros w0; exists (Exception "CUDA out of memory"); reflexivity |].
  exists row_data. split; [exact Hrow | by split].
Defined.

Lemma model_is_loaded_before_validation_witness :
  main ∅ demo_md5 demo_json database_down (fun _ => calm_cycle)
    (fun _ => ∅) 3 two_clips
  = (Crashed (KeyError "model_path"), two_clips).
Proof.
  destruct (model_is_loaded_before_validation ∅ demo_md5 demo_json database_down
              (fun _ => calm_cycle) (fun _ => ∅) 3 two_clips)
    as (H & _).
  apply H. reflexivity.
Defined.

Lemma invalid_config_exits_before_scanning_witness :
  let run := main incomplete_config demo_md5 demo_json database_down
               (fun _ => calm_cycle) (fun _ => ∅) 3 two_clips in
  fst run = Exited 1 /\ fs (snd run) = fs two_clips.
Proof.
  destruct (invalid_config_exits_before_scanning incomplete_config demo_md5
              demo_json database_down (fun _ => calm_cycle)
              (fun _ => ∅) 3 two_clips)
    as (Hr & _ & Hfs & _); [vm_compute; eauto | reflexivity | by vm_compute |].
  split; [exact Hr | exact Hfs].
Defined.

Lemma wrong_typed_folder_crashes_after_validation_witness :
  main mistyped_config demo_md5 demo_json database_down
    (fun _ => calm_cycle) (fun _ => ∅) 3 two_clips
  = (Crashed TypeError, two_clips).
Proof.
  apply (wrong_typed_folder_crashes_after_validation mistyped_config demo_md5
           demo_json database_down (fun _ => calm_cycle)
           (fun _ => ∅) 3 two_clips (CfgNum 7));
    [by vm_compute | reflexivity | by vm_compute | done].
Defined.

Lemma scan_loop_keeps_running_witness :
  fst (scan_loop demo_config demo_md5 demo_json (fun _ => model_fails_cycle)
         [CfgStr ".mp4"; CfgStr ".avi"] (fun _ => ∅) 3 0 two_clips)
  = Running.
Proof.
  apply (scan_loop_keeps_running demo_config demo_md5 demo_json
           (fun _ => model_fails_cycle) [".mp4"; ".avi"] (fun _ => ∅) 3 0%nat
           two_clips "in" (CfgNum 5));
    [by vm_compute | by vm_compute | by vm_compute | reflexivity | reflexivity].
Defined.

Lemma bad_interval_ends_after_first_cycle_witness :
  fst (scan_loop negative_interval_config demo_md5 demo_json (fun _ => calm_cycle)
         [CfgStr ".mp4"; CfgStr ".avi"] (fun _ => ∅) 3 0 two_clips)
  = Crashed ValueError.
Proof.
  destruct (bad_interval_ends_after_first_cycle negative_interval_config demo_md5
              demo_json (fun _ => calm_cycle) [".mp4"; ".avi"] (fun _ => ∅) 2 0%nat
              two_clips "in" (CfgNum (-5)) ValueError)
    as (Hr & _);
    [by vm_compute | by vm_compute | by vm_compute | reflexivity | reflexivity |].
  exact Hr.
Defined.
